(** * transitions/core.py: a shallow embedding of the state-machine engine

    The Python module defines [State], [Transition], [EventData], [Event]
    and [Machine].  The embedding keeps the classes as records, the
    dictionaries as finite maps, and the effects (mutation of the machine
    and of the bound model, exceptions) as a state-and-error monad.

    Conventions.
    - The machine and the model it is bound to form one store, the record
      [Machine]; the model is an object distinct from the machine (a
      [model] argument was given to the constructor).  The [machine] and
      [model] fields of [Event] and [EventData] point to that store and
      are left implicit.
    - The model's instance attributes written by the engine ([state],
      [is_<name>], the trigger methods) live in one attribute map, as
      [setattr] puts them in one namespace; an instance attribute hides a
      method of the same name.  The model's own methods are a parameter
      [method]: the effect of calling the member of that name with no
      argument, or the AttributeError of a missing member.
    - A callback returns a truth value: the engine looks at nothing else.
    - The lists of callbacks and of candidate transitions are read when
      their loop starts.  The records [State] and [Transition] hold the
      content of their callback lists; which list objects they are, which
      matters to [add_callback] only, is kept by [StateObj] and
      [TransitionObj] and a heap of list objects, of which the records
      are snapshots.
    - Every run also yields a log of the calls, attribute writes and
      state changes the engine issued.  The log is ghost data: no
      definition inspects it.
    - Triggers are called with positional arguments only. *)

From stdpp Require Import gmap strings list fin_maps.
From Stdlib Require Import Ascii.

Local Open Scope stdpp_scope.

(** ** Strings: the fragments of [str] the module uses *)

(** [s.split(sep)] for a one-character separator. *)
Fixpoint split (sep : ascii) (s : string) : list string :=
  match s with
  | EmptyString => [EmptyString]
  | String c s' =>
      if Ascii.eqb c sep then EmptyString :: split sep s'
      else match split sep s' with
           | [] => [String c EmptyString]
           | t :: ts => String c t :: ts
           end
  end.

(** [sep.join(l)]. *)
Fixpoint join (sep : string) (l : list string) : string :=
  match l with
  | [] => EmptyString
  | [x] => x
  | x :: xs => x +:+ sep +:+ join sep xs
  end.

(** [s.startswith(p)]. *)
Definition startswith (s p : string) : bool := String.prefix p s.

Definition underscore : ascii := Ascii.ascii_of_nat 95.
Definition dquote : string := String (Ascii.ascii_of_nat 34) EmptyString.

(** ** Arguments that are None, one value or a list *)

Inductive pyarg (A : Type) : Type :=
  | PNone
  | POne (a : A)
  | PList (l : list A).
Arguments PNone {A}.
Arguments POne {A} a.
Arguments PList {A} l.

(** [listify(obj)]: a list or None is returned as it is. *)
Definition listify {A} (obj : pyarg A) : pyarg A :=
  match obj with
  | PList l => PList l
  | PNone => PNone
  | POne a => PList [a]
  end.

(** Truth value of an argument: None, the empty string and the empty list
    are false. *)
Definition truthy (obj : pyarg string) : bool :=
  match obj with
  | PNone => false
  | POne s => negb (String.eqb s EmptyString)
  | PList l => negb (bool_decide (l = []))
  end.

(** The elements of an argument known to be a list. *)
Definition elems {A} (obj : pyarg A) : list A :=
  match obj with
  | PList l => l
  | _ => []
  end.

(** ** Exceptions and results *)

Inductive exn : Type :=
  | MachineError (value : string)
  | ValueError (msg : string)
  | AttributeError (attr : string)
  | TypeError (msg : string)
  | RuntimeError (msg : string)
  | KeyError (key : string)
  | UserError (tag : string).

Inductive result (A : Type) : Type :=
  | Ok (a : A)
  | Err (e : exn).
Arguments Ok {A} a.
Arguments Err {A} e.

(** ** The classes *)

Record State : Type := mkState {
  State_name : string;
  State_on_enter : list string;
  State_on_exit : list string
}.

(** [State(name, on_enter, on_exit)]. *)
Definition State_init (name : string) (on_enter on_exit : pyarg string) : State :=
  {| State_name := name;
     State_on_enter := if truthy on_enter then elems (listify on_enter) else [];
     State_on_exit := if truthy on_exit then elems (listify on_exit) else [] |}.

Record Transition : Type := mkTransition {
  Transition_source : string;
  Transition_dest : string;
  Transition_before : list string;
  Transition_after : list string;
  Transition_conditions : list string
}.

(** [Transition(source, dest, conditions, before, after)]. *)
Definition Transition_init (source dest : string)
    (conditions before after : pyarg string) : Transition :=
  {| Transition_source := source;
     Transition_dest := dest;
     Transition_before :=
       match before with PNone => [] | _ => elems (listify before) end;
     Transition_after :=
       match after with PNone => [] | _ => elems (listify after) end;
     Transition_conditions :=
       match conditions with PNone => [] | _ => elems (listify conditions) end |}.

(** An [Event]: its name and the candidate transitions filed by source
    name (a [defaultdict(list)]). *)
Record Event : Type := mkEvent {
  Event_name : string;
  Event_transitions : gmap string (list Transition)
}.

Definition Event_init (name : string) : Event :=
  {| Event_name := name; Event_transitions := ∅ |}.

(** [Event.add_transition]: append under the transition's source. *)
Definition Event_add_transition (t : Transition) (e : Event) : Event :=
  {| Event_name := Event_name e;
     Event_transitions :=
       <[Transition_source t :=
           default [] (Event_transitions e !! Transition_source t) ++ [t]]>
         (Event_transitions e) |}.

(** The members an [Event] object has: those set in [__init__] and the
    methods of the class. *)
Inductive Event_member : Type :=
  | Event_m_name
  | Event_m_machine
  | Event_m_transitions
  | Event_m_add_transition
  | Event_m_trigger.

Definition Event_getattr (attr : string) : option Event_member :=
  if String.eqb attr "name" then Some Event_m_name
  else if String.eqb attr "machine" then Some Event_m_machine
  else if String.eqb attr "transitions" then Some Event_m_transitions
  else if String.eqb attr "add_transition" then Some Event_m_add_transition
  else if String.eqb attr "trigger" then Some Event_m_trigger
  else None.

(** Instance attributes the engine sets on the model. *)
Inductive attr : Type :=
  | AStr (s : string)            (* model.state = name *)
  | AIsState (name : string)     (* partial(machine.is_state, name) *)
  | ATrigger (event : string).   (* machine.events[event].trigger *)

Record Model (W : Type) : Type := mkModel {
  Model_attrs : gmap string attr;
  Model_data : W
}.
Arguments mkModel {W}.
Arguments Model_attrs {W}.
Arguments Model_data {W}.

Record Machine (W : Type) : Type := mkMachine {
  Machine_model : Model W;
  Machine_states : gmap string State;
  Machine_events : gmap string Event;
  Machine_current_state : option State;
  Machine_send_event : bool
}.
Arguments mkMachine {W}.
Arguments Machine_model {W}.
Arguments Machine_states {W}.
Arguments Machine_events {W}.
Arguments Machine_current_state {W}.
Arguments Machine_send_event {W}.

(** [EventData]: the state the event was triggered from, the event and
    the positional arguments of the call. *)
Record EventData (A : Type) : Type := mkEventData {
  EventData_state : option State;
  EventData_event : string;
  EventData_args : list A
}.
Arguments mkEventData {A}.
Arguments EventData_state {A}.
Arguments EventData_event {A}.
Arguments EventData_args {A}.

(** ** The log of engine actions (ghost) *)

Inductive action : Type :=
  | ACall (name : string)        (* getattr(model, name)() *)
  | ASetAttr (name : string) (v : attr)   (* setattr(model, name, v) *)
  | ASetState (name : string)    (* machine.current_state = state *)
  | AUpdate                      (* EventData.update() *)
  | ANewEventData                (* EventData(...) built *)
  | APrint (line : string).      (* print *)

(** ** The state-and-error monad of the engine *)

Definition M (W X : Type) : Type :=
  Machine W -> result X * Machine W * list action.

Definition ret {W X} (x : X) : M W X := fun m => (Ok x, m, []).

Definition raise {W X} (e : exn) : M W X := fun m => (Err e, m, []).

Definition bind {W X Y} (c : M W X) (k : X -> M W Y) : M W Y :=
  fun m =>
    match c m with
    | (Ok x, m1, l1) =>
        match k x m1 with
        | (r, m2, l2) => (r, m2, l1 ++ l2)
        end
    | (Err e, m1, l1) => (Err e, m1, l1)
    end.

Definition get {W} : M W (Machine W) := fun m => (Ok m, m, []).

Definition put {W} (m' : Machine W) : M W unit := fun _ => (Ok tt, m', []).

Definition log {W} (a : action) : M W unit := fun m => (Ok tt, m, [a]).

Declare Scope engine_scope.
Delimit Scope engine_scope with engine.
Notation "'let!' x ':=' c 'in' k" := (bind c (fun x => k))
  (at level 10, x pattern, c at level 100, k at level 200) : engine_scope.
Notation "c ';;' k" := (bind c (fun _ => k))
  (at level 100, k at level 200, right associativity) : engine_scope.
Local Open Scope engine_scope.

(** Field updates of the store. *)
Definition with_current_state {W} (st : option State) (m : Machine W) : Machine W :=
  {| Machine_model := Machine_model m;
     Machine_states := Machine_states m;
     Machine_events := Machine_events m;
     Machine_current_state := st;
     Machine_send_event := Machine_send_event m |}.

Definition with_states {W} (sts : gmap string State) (m : Machine W) : Machine W :=
  {| Machine_model := Machine_model m;
     Machine_states := sts;
     Machine_events := Machine_events m;
     Machine_current_state := Machine_current_state m;
     Machine_send_event := Machine_send_event m |}.

Definition with_events {W} (evs : gmap string Event) (m : Machine W) : Machine W :=
  {| Machine_model := Machine_model m;
     Machine_states := Machine_states m;
     Machine_events := evs;
     Machine_current_state := Machine_current_state m;
     Machine_send_event := Machine_send_event m |}.

Definition with_model {W} (md : Model W) (m : Machine W) : Machine W :=
  {| Machine_model := md;
     Machine_states := Machine_states m;
     Machine_events := Machine_events m;
     Machine_current_state := Machine_current_state m;
     Machine_send_event := Machine_send_event m |}.

(** The store with the model's own data replaced. *)
Definition with_data {W} (d : W) (m : Machine W) : Machine W :=
  with_model {| Model_attrs := Model_attrs (Machine_model m); Model_data := d |} m.

(** [setattr(machine.model, name, v)]. *)
Definition setattr_model {W} (name : string) (v : attr) : M W unit :=
  fun m =>
    (Ok tt,
     with_model {| Model_attrs := <[name := v]> (Model_attrs (Machine_model m));
                   Model_data := Model_data (Machine_model m) |} m,
     [ASetAttr name v]).

(** A state given by name or as a [State] instance. *)
Inductive state_ref : Type :=
  | SName (name : string)
  | SObj (st : State).

(** The named arguments of one transition descriptor. *)
Record TransitionDesc : Type := mkTransitionDesc {
  td_trigger : string;
  td_source : pyarg string;
  td_dest : string;
  td_conditions : pyarg string;
  td_before : pyarg string;
  td_after : pyarg string
}.

(** What [Machine.__getattr__] returns. *)
Inductive bound : Type :=
  | BNone
  | BEventPartial (event : string) (member : Event_member) (arg : string)
  | BStateAddCallback (st : State) (trigger : string).

Section Engine.
Context {W A : Type}.

(** Calling the model's own member [name] with no argument: the truth
    value it returns or the exception it raises, and the store it
    leaves.  A missing member raises AttributeError. *)
Variable method : string -> Machine W -> result bool * Machine W.

(** A trigger bound on the model and called from a callback list. *)
Variable reenter : Event -> M W bool.

(** [Machine.is_state]. *)
Definition Machine_is_state (state : string) : M W bool :=
  let! m := get in
  match Machine_current_state m with
  | None => raise (AttributeError "name")
  | Some cur => ret (bool_decide (State_name cur = state))
  end.

(** [Machine.get_state]. *)
Definition Machine_get_state (state : string) : M W State :=
  let! m := get in
  match Machine_states m !! state with
  | None => raise (ValueError ("State '" +:+ state +:+ "' is not a registered state."))
  | Some st => ret st
  end.

(** [Machine.set_state]: a name is resolved, anything else is assigned
    as it is; then the name is mirrored on the model. *)
Definition Machine_set_state (state : option state_ref) : M W unit :=
  let! st :=
    match state with
    | Some (SName name) => let! s := Machine_get_state name in ret (Some s)
    | Some (SObj s) => ret (Some s)
    | None => ret None
    end in
  let! m := get in
  put (with_current_state st m);;
  match st with
  | None => raise (AttributeError "name")
  | Some s =>
      log (ASetState (State_name s));;
      setattr_model "state" (AStr (State_name s))
  end.

(** [getattr(model, name)()]. *)
Definition call_attr (name : string) : M W bool :=
  log (ACall name);;
  let! m := get in
  match Model_attrs (Machine_model m) !! name with
  | Some (AStr _) => raise (TypeError "'str' object is not callable")
  | Some (AIsState n) => Machine_is_state n
  | Some (ATrigger ev) =>
      match Machine_events m !! ev with
      | Some e => reenter e
      | None => raise (RuntimeError "event object lost")
      end
  | None => fun m => (method name m, [])
  end.

(** [for f in names: getattr(model, f)()]. *)
Fixpoint call_each (names : list string) : M W unit :=
  match names with
  | [] => ret tt
  | f :: rest => call_attr f;; call_each rest
  end.

(** [State.enter] and [State.exit]. *)
Definition State_enter (st : State) : M W unit := call_each (State_on_enter st).
Definition State_exit (st : State) : M W unit := call_each (State_on_exit st).

(** The guard loop of [Transition.execute]: false at the first guard
    that returns false. *)
Fixpoint check_conditions (conds : list string) : M W bool :=
  match conds with
  | [] => ret true
  | c :: rest =>
      let! ok := call_attr c in
      if ok then check_conditions rest else ret false
  end.

(** [EventData.update]. *)
Definition EventData_update (ed : EventData A) : M W (EventData A) :=
  let! m := get in
  log AUpdate;;
  ret {| EventData_state := Machine_current_state m;
         EventData_event := EventData_event ed;
         EventData_args := EventData_args ed |}.

(** [Transition.execute]: the truth value returned and the event data
    as the call leaves it. *)
Definition Transition_execute (t : Transition) (ed : EventData A)
    : M W (bool * EventData A) :=
  let! ok := check_conditions (Transition_conditions t) in
  if negb ok then ret (false, ed)
  else
    call_each (Transition_before t);;
    let! src := Machine_get_state (Transition_source t) in
    State_exit src;;
    Machine_set_state (Some (SName (Transition_dest t)));;
    let! ed' := EventData_update ed in
    let! dst := Machine_get_state (Transition_dest t) in
    State_enter dst;;
    call_each (Transition_after t);;
    ret (true, ed').

(** The loop of [Event.trigger]. *)
Fixpoint try_transitions (ts : list Transition) (ed : EventData A) : M W bool :=
  match ts with
  | [] => ret false
  | t :: rest =>
      let! r := Transition_execute t ed in
      if fst r then ret true else try_transitions rest (snd r)
  end.

(** [Event.trigger]. *)
Definition Event_trigger (e : Event) (args : list A) : M W bool :=
  let! m := get in
  match Machine_current_state m with
  | None => raise (AttributeError "name")
  | Some cur =>
      let state_name := State_name cur in
      match Event_transitions e !! state_name with
      | None =>
          raise (MachineError ("Can't trigger event " +:+ Event_name e
                               +:+ " from state " +:+ state_name +:+ "!"))
      | Some ts =>
          log ANewEventData;;
          try_transitions ts
            {| EventData_state := Some cur;
               EventData_event := Event_name e;
               EventData_args := args |}
      end
  end.

(** The loop of [Machine.add_transition] over the resolved sources. *)
Fixpoint file_transitions (trigger : string) (sources : list string)
    (dest : string) (conditions before after : pyarg string) : M W unit :=
  match sources with
  | [] => ret tt
  | s :: rest =>
      let t := Transition_init s dest conditions before after in
      let! m := get in
      match Machine_events m !! trigger with
      | None => raise (KeyError trigger)
      | Some e =>
          put (with_events (<[trigger := Event_add_transition t e]> (Machine_events m)) m)
      end;;
      file_transitions trigger rest dest conditions before after
  end.

(** [Machine.add_transition]. *)
Definition Machine_add_transition (trigger : string) (source : pyarg string)
    (dest : string) (conditions before after : pyarg string) : M W unit :=
  let! m := get in
  match Machine_events m !! trigger with
  | Some _ => ret tt
  | None =>
      put (with_events (<[trigger := Event_init trigger]> (Machine_events m)) m);;
      setattr_model trigger (ATrigger trigger)
  end;;
  let! m := get in
  let! sources :=
    match source with
    | POne s =>
        ret (if bool_decide (s = "*") then (map_to_list (Machine_states m)).*1
             else [s])
    | PList l => ret l
    | PNone => raise (TypeError "'NoneType' object is not iterable")
    end in
  file_transitions trigger sources dest conditions before after.

(** [Machine.__getattr__]. *)
Definition Machine_getattr (name : string) : M W bound :=
  let terms := split underscore name in
  let first := hd EmptyString terms in
  if bool_decide (first = "before") || bool_decide (first = "after") then
    let name := join "_" (tl terms) in
    log (APrint name);;
    let! m := get in
    match Machine_events m !! name with
    | None =>
        raise (MachineError ("Event " +:+ dquote +:+ name +:+ dquote
                             +:+ " is not registered."))
    | Some e =>
        match Event_getattr "add_callback" with
        | None => raise (AttributeError "add_callback")
        | Some member => ret (BEventPartial name member first)
        end
    end
  else if startswith name "on_enter" || startswith name "on_exit" then
    let! st := Machine_get_state (join "_" (drop 2 terms)) in
    ret (BStateAddCallback st (nth 1 terms EmptyString))
  else ret BNone.

(** The state registration loop of [Machine.__init__]. *)
Fixpoint register_states (descs : list state_ref) : M W unit :=
  match descs with
  | [] => ret tt
  | d :: rest =>
      let s := match d with SName name => State_init name PNone PNone | SObj st => st end in
      let! m := get in
      put (with_states (<[State_name s := s]> (Machine_states m)) m);;
      setattr_model ("is_" +:+ State_name s) (AIsState (State_name s));;
      register_states rest
  end.

(** The transition loop of [Machine.__init__]. *)
Fixpoint add_transitions (descs : list TransitionDesc) : M W unit :=
  match descs with
  | [] => ret tt
  | t :: rest =>
      Machine_add_transition (td_trigger t) (td_source t) (td_dest t)
        (td_conditions t) (td_before t) (td_after t);;
      add_transitions rest
  end.

(** [Machine(model, states, initial, transitions, send_event)] for a
    [model] that is not None: line 173 binds the machine to that object.
    With [model=None] the machine is its own model, and the attributes
    the engine sets ([state], [is_<name>], the triggers) land among the
    machine's own members ([current_state], [states], [events], [model],
    [is_state], ...), which they can replace; that construction is not
    part of this embedding, and every statement about [Machine_init] is
    about a machine bound to a model object of its own. *)
Definition Machine_init (model : Model W) (states : pyarg state_ref)
    (initial : option state_ref) (transitions : option (list TransitionDesc))
    (send_event : bool) : result unit * Machine W * list action :=
  (match states with
   | PNone => ret tt
   | _ => register_states (elems (listify states))
   end;;
   Machine_set_state initial;;
   match transitions with
   | None => ret tt
   | Some ts => add_transitions ts
   end)
    {| Machine_model := model;
       Machine_states := ∅;
       Machine_events := ∅;
       Machine_current_state := None;
       Machine_send_event := send_event |}.
End Engine.

(** A bound trigger called from a callback nests a call of
    [Event.trigger]; [depth] bounds the nesting as the interpreter's
    recursion limit does. *)
Fixpoint Event_trigger_at {W A} (method : string -> Machine W -> result bool * Machine W)
    (depth : nat) (e : Event) (args : list A) : M W bool :=
  match depth with
  | O => raise (RuntimeError "maximum recursion depth exceeded")
  | S d => Event_trigger method (fun e' => Event_trigger_at method d e' (@nil A)) e args
  end.

(** ** Vocabulary of the statements *)

(** The store once [set_state] has made [dst] current: the current state
    and the model's [state] attribute. *)
Definition moved_to {W} (dst : State) (m : Machine W) : Machine W :=
  with_model
    {| Model_attrs := <["state" := AStr (State_name dst)]> (Model_attrs (Machine_model m));
       Model_data := Model_data (Machine_model m) |}
    (with_current_state (Some dst) m).


(** Number of [EventData] objects built in a log. *)
Fixpoint built (l : list action) : nat :=
  match l with
  | [] => 0
  | ANewEventData :: rest => S (built rest)
  | _ :: rest => built rest
  end.

(** The log of a taken transition once its guards have passed: before,
    exit of the source, the state change, the refresh of the event data,
    enter of the destination, after. *)
Definition protocol_log (t : Transition) (src dst : State) : list action :=
  (ACall <$> Transition_before t) ++
  (ACall <$> State_on_exit src) ++
  [ASetState (State_name dst); ASetAttr "state" (AStr (State_name dst)); AUpdate] ++
  (ACall <$> State_on_enter dst) ++
  (ACall <$> Transition_after t).

(** The event data once [update] has run with [dst] current. *)
Definition refreshed {A} (dst : State) (ed : EventData A) : EventData A :=
  {| EventData_state := Some dst;
     EventData_event := EventData_event ed;
     EventData_args := EventData_args ed |}.

Section Callbacks.
Context {W : Type}.
Variable method : string -> Machine W -> result bool * Machine W.

(** [name] is a member of the model itself (no attribute set by the
    engine hides it), it returns, and it changes the model's data only. *)
Definition plain (m : Machine W) (name : string) : Prop :=
  name ≠ "state" ∧
  Model_attrs (Machine_model m) !! name = None ∧
  ∀ m', ∃ b d, method name m' = (Ok b, with_data d m').

(** [name] is such a member, but raises [x]. *)
Definition failing (m : Machine W) (name : string) (x : exn) : Prop :=
  name ≠ "state" ∧
  Model_attrs (Machine_model m) !! name = None ∧
  ∀ m', ∃ d, method name m' = (Err x, with_data d m').

(** [name] is such a member, whatever it returns or raises. *)
Definition quiet (m : Machine W) (name : string) : Prop :=
  Model_attrs (Machine_model m) !! name = None ∧
  ∀ m', ∃ r d, method name m' = (r, with_data d m').
End Callbacks.

Section Candidates.
Context {W : Type}.
Variable method : string -> Machine W -> result bool * Machine W.
Variable reenter : Event -> M W bool.

(** A run in which each candidate in turn reports not-taken: a guard
    of each returns false.  The run leads from the first store to the
    second and issues the log. *)
Inductive declined : list Transition -> Machine W -> Machine W -> list action -> Prop :=
  | declined_nil m : declined [] m m []
  | declined_cons t ts m m1 m2 l1 l2 :
      check_conditions method reenter (Transition_conditions t) m = (Ok false, m1, l1) ->
      declined ts m1 m2 l2 ->
      declined (t :: ts) m m2 (l1 ++ l2).
End Candidates.

(** The name a state reference stands for. *)
Definition ref_name (r : state_ref) : string :=
  match r with
  | SName name => name
  | SObj st => State_name st
  end.

(** Every registered name has its predicate on the model: the attribute
    [is_<name>] is the one bound at registration. *)
Definition predicates_bound {W} (m : Machine W) : Prop :=
  forall T, T ∈ dom (Machine_states m) ->
    Model_attrs (Machine_model m) !! ("is_" +:+ T) = Some (AIsState T).

(** The registry files every state under its own name. *)
Definition keyed_by_name {W} (m : Machine W) : Prop :=
  forall k st, Machine_states m !! k = Some st -> State_name st = k.

Section Mirror.
Context {W : Type}.
Variable method : string -> Machine W -> result bool * Machine W.
Variable reenter : Event -> M W bool.

(** The model shows the state named [S]: its [state] attribute is [S],
    calling [is_S] on the model returns true and calling [is_T] returns
    false for every other registered name [T]. *)
Definition mirrors (m : Machine W) (S : string) : Prop :=
  Model_attrs (Machine_model m) !! "state" = Some (AStr S) /\
  call_attr method reenter ("is_" +:+ S) m = (Ok true, m, [ACall ("is_" +:+ S)]) /\
  forall T, T ∈ dom (Machine_states m) -> T ≠ S ->
    call_attr method reenter ("is_" +:+ T) m = (Ok false, m, [ACall ("is_" +:+ T)]).
End Mirror.

(** ** A concrete model and machine

    The model keeps a journal of the members called on it.  [is_cold]
    returns false, [boom] raises, [missing] is not a member; every other
    name is a member that returns true. *)
Module Demo.
Definition journal : Type := list string.

Definition method (name : string) (m : Machine journal)
    : result bool * Machine journal :=
  let m' := with_data (Model_data (Machine_model m) ++ [name]) m in
  if bool_decide (name = "missing") then (Err (AttributeError name), m)
  else if bool_decide (name = "boom") then (Err (UserError name), m')
  else if bool_decide (name = "is_cold") then (Ok false, m')
  else (Ok true, m').

Definition model : Model journal :=
  {| Model_attrs := ∅; Model_data := [] |}.

Definition trigger_at (depth : nat) (e : Event) : M journal bool :=
  Event_trigger_at (A := unit) method depth e [].

Definition descriptor (trigger source dest : string)
    (conditions before after : pyarg string) : TransitionDesc :=
  {| td_trigger := trigger; td_source := POne source; td_dest := dest;
     td_conditions := conditions; td_before := before; td_after := after |}.

Definition solid : State := State_init "solid" PNone (POne "leave_solid").
Definition liquid : State :=
  State_init "liquid" (PList ["enter_liquid"; "wet"]) PNone.

Definition machine_of {X} (r : result X * Machine journal * list action)
    : Machine journal := snd (fst r).

(** States solid, liquid and gas; melt: solid to liquid; evaporate:
    liquid to gas, guarded. *)
Definition matter (guard : string) (before after : pyarg string)
    : result unit * Machine journal * list action :=
  Machine_init model
    (PList [SObj solid; SObj liquid; SName "gas"])
    (Some (SName "solid"))
    (Some [descriptor "melt" "solid" "liquid" PNone before after;
           descriptor "evaporate" "liquid" "gas" (POne guard) PNone PNone])
    false.

(** The machine with melt's callbacks passed in the descriptor, and the
    machine with none. *)
Definition at_solid : Machine journal :=
  machine_of (matter "is_hot" (PList ["b1"; "b2"]) (PList ["a1"; "a2"])).
Definition bare : Machine journal := machine_of (matter "is_hot" PNone PNone).

Definition guarded : Transition :=
  Transition_init "solid" "liquid" (PList ["is_hot"; "is_cold"; "never"])
    (POne "b") (POne "a").
Definition evaporate_event : Event :=
  Event_add_transition (Transition_init "liquid" "gas" (POne "is_hot") PNone PNone)
    (Event_init "evaporate").

Definition context (st : State) (event : string) : EventData unit :=
  {| EventData_state := Some st; EventData_event := event; EventData_args := [] |}.

(** A kettle whose destination state has an enter callback that raises. *)
Definition cold : State := State_init "cold" PNone (POne "leave_cold").
Definition hot : State := State_init "hot" (PList ["hiss"; "boom"; "late"]) PNone.
Definition heat : Transition := Transition_init "cold" "hot" PNone (POne "b") (POne "a").
Definition heat_event : Event := Event_add_transition heat (Event_init "heat").
Definition kettle : Machine journal :=
  machine_of
    (Machine_init model (PList [SObj cold; SObj hot]) (Some (SName "cold"))
       (Some [descriptor "heat" "cold" "hot" PNone (POne "b") (POne "a")]) false).

(** Two candidates for the same event and source. *)
Definition go1 : Transition :=
  Transition_init "A" "B" (POne "is_cold") (POne "x1") (POne "y1").
Definition go2 : Transition :=
  Transition_init "A" "C" (POne "is_hot") (POne "x2") (POne "y2").
Definition go_event : Event :=
  Event_add_transition go2 (Event_add_transition go1 (Event_init "go")).
Definition fork : Machine journal :=
  machine_of
    (Machine_init model (PList [SName "A"; SName "B"; SName "C"]) (Some (SName "A"))
       (Some [descriptor "go" "A" "B" (POne "is_cold") (POne "x1") (POne "y1");
              descriptor "go" "A" "C" (POne "is_hot") (POne "x2") (POne "y2")])
       false).

End Demo.

(** ** Callback lists as objects

    [State] and [Transition] keep the list object the caller passes
    ([listify] returns a list as it is), and [add_callback] appends to a
    list in place.  Two attributes of one object, or attributes of
    several objects, can therefore hold one and the same list.  A [loc]
    is the identity of a list object and a [heap] gives the content of
    every list object; the records [State] and [Transition] above are
    the snapshots of such objects ([State_view], [Transition_view]). *)

Abbreviation loc := nat (only parsing).
Abbreviation heap := (list (list string)) (only parsing).

(** A callback argument as the caller passes it: None, one name, or a
    list object. *)
Inductive pyref : Type :=
  | RNone
  | RStr (s : string)
  | RList (l : loc).

(** The content of a list object. *)
Definition content (h : heap) (l : loc) : list string := default [] (h !! l).

(** The list object exists. *)
Definition live (h : heap) (l : loc) : Prop := is_Some (h !! l).

Definition pyref_live (h : heap) (obj : pyref) : Prop :=
  match obj with
  | RList l => live h l
  | _ => True
  end.

(** The value of an argument: a list object stands for its content. *)
Definition pyref_value (h : heap) (obj : pyref) : pyarg string :=
  match obj with
  | RNone => PNone
  | RStr s => POne s
  | RList l => PList (content h l)
  end.

(** A list display [[x; ...]]: a new list object. *)
Definition new_list (xs : list string) (h : heap) : loc * heap :=
  (length h, h ++ [xs]).

(** [l.append(x)]. *)
Definition list_append (l : loc) (x : string) (h : heap) : heap :=
  alter (fun xs => xs ++ [x]) l h.

(** [listify(obj)]: a list object or None is returned itself, anything
    else is put in a new list. *)
Definition listify_ref (obj : pyref) (h : heap) : option loc * heap :=
  match obj with
  | RList l => (Some l, h)
  | RNone => (None, h)
  | RStr s => let (l, h') := new_list [s] h in (Some l, h')
  end.

(** Truth value of an argument. *)
Definition truthy_ref (obj : pyref) (h : heap) : bool :=
  truthy (pyref_value h obj).

(** A [State] object: its name and its two list objects. *)
Record StateObj : Type := mkStateObj {
  StateObj_name : string;
  StateObj_on_enter : loc;
  StateObj_on_exit : loc
}.

(** [listify(obj) if obj else []]. *)
Definition State_callbacks (obj : pyref) (h : heap) : loc * heap :=
  if truthy_ref obj h then
    match listify_ref obj h with
    | (Some l, h') => (l, h')
    | (None, _) => new_list [] h    (* None is not true *)
    end
  else new_list [] h.

(** [State(name, on_enter, on_exit)] as an object. *)
Definition StateObj_init (name : string) (on_enter on_exit : pyref) (h : heap)
    : StateObj * heap :=
  let (e, h1) := State_callbacks on_enter h in
  let (x, h2) := State_callbacks on_exit h1 in
  ({| StateObj_name := name; StateObj_on_enter := e; StateObj_on_exit := x |}, h2).

(** The snapshot of a [State] object. *)
Definition State_view (h : heap) (so : StateObj) : State :=
  {| State_name := StateObj_name so;
     State_on_enter := content h (StateObj_on_enter so);
     State_on_exit := content h (StateObj_on_exit so) |}.

Definition State_live (h : heap) (so : StateObj) : Prop :=
  live h (StateObj_on_enter so) /\ live h (StateObj_on_exit so).

(** [getattr(state, name)] for a name that starts with [on_]: the two
    lists are the only members of that form. *)
Definition State_getattr_on (name : string) (so : StateObj) : option loc :=
  if bool_decide (name = "on_enter") then Some (StateObj_on_enter so)
  else if bool_decide (name = "on_exit") then Some (StateObj_on_exit so)
  else None.

(** [State.add_callback]. *)
Definition State_add_callback (trigger func : string) (so : StateObj) (h : heap)
    : result unit * heap :=
  match State_getattr_on ("on_" +:+ trigger) so with
  | Some callback_list => (Ok tt, list_append callback_list func h)
  | None => (Err (AttributeError ("on_" +:+ trigger)), h)
  end.

(** A [Transition] object. *)
Record TransitionObj : Type := mkTransitionObj {
  TransitionObj_source : string;
  TransitionObj_dest : string;
  TransitionObj_before : loc;
  TransitionObj_after : loc;
  TransitionObj_conditions : loc
}.

(** [[] if obj is None else listify(obj)]. *)
Definition Transition_callbacks (obj : pyref) (h : heap) : loc * heap :=
  match obj with
  | RNone => new_list [] h
  | _ =>
      match listify_ref obj h with
      | (Some l, h') => (l, h')
      | (None, _) => new_list [] h    (* only None is listified to None *)
      end
  end.

(** [Transition(source, dest, conditions, before, after)] as an object:
    [before] is set first, then [after], then [conditions]. *)
Definition TransitionObj_init (source dest : string)
    (conditions before after : pyref) (h : heap) : TransitionObj * heap :=
  let (b, h1) := Transition_callbacks before h in
  let (a, h2) := Transition_callbacks after h1 in
  let (c, h3) := Transition_callbacks conditions h2 in
  ({| TransitionObj_source := source; TransitionObj_dest := dest;
      TransitionObj_before := b; TransitionObj_after := a;
      TransitionObj_conditions := c |}, h3).

(** The snapshot of a [Transition] object. *)
Definition Transition_view (h : heap) (t : TransitionObj) : Transition :=
  {| Transition_source := TransitionObj_source t;
     Transition_dest := TransitionObj_dest t;
     Transition_before := content h (TransitionObj_before t);
     Transition_after := content h (TransitionObj_after t);
     Transition_conditions := content h (TransitionObj_conditions t) |}.

Definition Transition_live (h : heap) (t : TransitionObj) : Prop :=
  live h (TransitionObj_before t) /\ live h (TransitionObj_after t) /\
  live h (TransitionObj_conditions t).

(** What [getattr(transition, name)] finds: one of the three lists, or a
    member that is no list. *)
Inductive Transition_member : Type :=
  | Transition_m_list (l : loc)
  | Transition_m_other.

(** The members an instance of a class written [class C(object)] has
    besides those its class defines, in Python 2.7 (the module is
    Python 2: it uses the print statement and [basestring]). *)
Definition object_members : list string :=
  ["__class__"; "__delattr__"; "__dict__"; "__doc__"; "__format__";
   "__getattribute__"; "__hash__"; "__init__"; "__module__"; "__new__";
   "__reduce__"; "__reduce_ex__"; "__repr__"; "__setattr__"; "__sizeof__";
   "__str__"; "__subclasshook__"; "__weakref__"].

(** [getattr(transition, name)].  [inherited] lists the members the
    interpreter gives every such instance ([object_members] for
    Python 2.7). *)
Definition Transition_getattr (inherited : list string) (name : string)
    (t : TransitionObj) : option Transition_member :=
  if bool_decide (name = "before") then Some (Transition_m_list (TransitionObj_before t))
  else if bool_decide (name = "after") then Some (Transition_m_list (TransitionObj_after t))
  else if bool_decide (name = "conditions") then
    Some (Transition_m_list (TransitionObj_conditions t))
  else if bool_decide (name ∈ ["source"; "dest"; "execute"; "add_callback"] ++ inherited)
  then Some Transition_m_other
  else None.

(** [Transition.add_callback]: a member that is no list has no
    [append]. *)
Definition Transition_add_callback (inherited : list string) (trigger func : string)
    (t : TransitionObj) (h : heap) : result unit * heap :=
  match Transition_getattr inherited trigger t with
  | Some (Transition_m_list callback_list) => (Ok tt, list_append callback_list func h)
  | Some Transition_m_other => (Err (AttributeError "append"), h)
  | None => (Err (AttributeError trigger), h)
  end.

(** Objects that share a list.  The caller's list [L] holds the names
    [a] and [b]; [twin] is [State('s', on_enter=L, on_exit=L)], [apart]
    is [State('s', on_enter='a', on_exit=L)], [shared] is
    [Transition('solid', 'liquid', conditions=None, before=L, after=L)]
    and [guarded_by] is [Transition('solid', 'liquid', conditions=G,
    before=G, after='a')] for the caller's list [G] that holds
    [is_hot]. *)
Module Shared.
Definition caller : heap := [["a"; "b"]; ["is_hot"]].
Definition twin : StateObj * heap := StateObj_init "s" (RList 0) (RList 0) caller.
Definition apart : StateObj * heap := StateObj_init "s" (RStr "a") (RList 0) caller.
Definition shared : TransitionObj * heap :=
  TransitionObj_init "solid" "liquid" RNone (RList 0) (RList 0) caller.
Definition guarded_by : TransitionObj * heap :=
  TransitionObj_init "solid" "liquid" (RList 1) (RList 1) (RStr "a") caller.
End Shared.

(** ** More vocabulary *)

(** The [State] a state descriptor of the constructor stands for. *)
Definition desc_state (d : state_ref) : State :=
  match d with
  | SName name => State_init name PNone PNone
  | SObj st => st
  end.

(** The state descriptors the constructor registers. *)
Definition state_descs (states : pyarg state_ref) : list state_ref :=
  match states with
  | PNone => []
  | _ => elems (listify states)
  end.



(** The current state is the state registered under its name. *)
Definition current_registered {W} (m : Machine W) : Prop :=
  exists cur, Machine_current_state m = Some cur /\
              Machine_states m !! State_name cur = Some cur.

(** Every callback of every registered state is plain. *)
Definition states_plain {W} (method : string -> Machine W -> result bool * Machine W)
    (m : Machine W) : Prop :=
  forall k st, Machine_states m !! k = Some st ->
    Forall (plain method m) (State_on_enter st ++ State_on_exit st).

(** The guards of the transition are quiet and its before and after
    callbacks plain. *)
Definition transition_plain {W} (method : string -> Machine W -> result bool * Machine W)
    (m : Machine W) (t : Transition) : Prop :=
  Forall (quiet method m) (Transition_conditions t) /\
  Forall (plain method m) (Transition_before t ++ Transition_after t).





(** The machine is consistent: states are filed under their names, every
    registered name has its predicate on the model, the current state is
    the state registered under its name, and the model's [state]
    attribute is that name. *)
Definition consistent {W} (m : Machine W) : Prop :=
  keyed_by_name m /\ predicates_bound m /\
  exists cur, Machine_current_state m = Some cur /\
              Machine_states m !! State_name cur = Some cur /\
              Model_attrs (Machine_model m) !! "state" = Some (AStr (State_name cur)).


(** ** More concrete machines *)
Module Sample.
(** States A, B and C; [go] leads from A to B and names the trigger
    [next] as its after callback; [next] leads from B to C. *)
Definition chain : Machine Demo.journal :=
  Demo.machine_of
    (Machine_init Demo.model (PList [SName "A"; SName "B"; SName "C"]) (Some (SName "A"))
       (Some [Demo.descriptor "go" "A" "B" PNone (POne "b") (POne "next");
              Demo.descriptor "next" "B" "C" PNone PNone (POne "a")])
       false).
Definition go : Transition := Transition_init "A" "B" PNone (POne "b") (POne "next").
Definition next_event : Event :=
  Event_add_transition (Transition_init "B" "C" PNone PNone (POne "a")) (Event_init "next").
Definition state_A : State := State_init "A" PNone PNone.
Definition state_B : State := State_init "B" PNone PNone.
Definition state_C : State := State_init "C" PNone PNone.

(** A transition from solid whose second guard raises. *)
Definition thaw : Transition :=
  Transition_init "solid" "liquid" (PList ["warm"; "boom"; "never"]) PNone PNone.
Definition thaw_event : Event := Event_add_transition thaw (Event_init "thaw").
End Sample.

(** * Properties *)

(** ** Strings *)

Lemma split_nonempty sep s : split sep s ≠ [].
Proof.
  destruct s as [|c s]; simpl; [done|].
  destruct (Ascii.eqb c sep); [done|].
  by destruct (split sep s).
Qed.

Lemma join_cons2 sep x y l : join sep (x :: y :: l) = x +:+ sep +:+ join sep (y :: l).
Proof. reflexivity. Qed.

Lemma join_split s : join "_" (split underscore s) = s.
Proof.
  induction s as [|c s IH]; [reflexivity|].
  simpl split. destruct (Ascii.eqb c underscore) eqn:E.
  - apply Ascii.eqb_eq in E as ->.
    pose proof (split_nonempty underscore s) as Hne.
    destruct (split underscore s) as [|t ts]; [done|].
    rewrite join_cons2, IH. reflexivity.
  - pose proof (split_nonempty underscore s) as Hne.
    destruct (split underscore s) as [|t ts]; [done|].
    destruct ts as [|y r].
    + simpl in *. by rewrite IH.
    + rewrite join_cons2. rewrite join_cons2 in IH.
      rewrite <- IH. reflexivity.
Qed.

Lemma split_before s :
  split underscore ("before_" +:+ s) = "before" :: split underscore s.
Proof. reflexivity. Qed.

Lemma split_after s :
  split underscore ("after_" +:+ s) = "after" :: split underscore s.
Proof. reflexivity. Qed.

(** ** The monad and the callback loops *)

Lemma bind_ok {W X Y} (c : M W X) (k : X -> M W Y) m x m1 l1 :
  c m = (Ok x, m1, l1) ->
  bind c k m = match k x m1 with (r, m2, l2) => (r, m2, l1 ++ l2) end.
Proof. intros H. unfold bind. rewrite H. reflexivity. Qed.

Lemma bind_err {W X Y} (c : M W X) (k : X -> M W Y) m e m1 l1 :
  c m = (Err e, m1, l1) ->
  bind c k m = (Err e, m1, l1).
Proof. intros H. unfold bind. rewrite H. reflexivity. Qed.

(** One step of a run: the first computation of a [bind] is known. *)
Tactic Notation "run_ok" tactic3(tac) := erewrite bind_ok by tac; cbn beta iota.
Tactic Notation "run_err" tactic3(tac) := erewrite bind_err by tac; cbn beta iota.

Section Protocol.
Context {W A : Type}.
Variable method : string -> Machine W -> result bool * Machine W.
Variable reenter : Event -> M W bool.

Lemma with_data_same (m : Machine W) :
  with_data (Model_data (Machine_model m)) m = m.
Proof. by destruct m as [[??]????]. Qed.

Lemma call_attr_own name m r m' :
  Model_attrs (Machine_model m) !! name = None ->
  method name m = (r, m') ->
  call_attr method reenter name m = (r, m', [ACall name]).
Proof.
  intros H Hm. unfold call_attr, bind, log, get. rewrite H, Hm.
  by destruct r.
Qed.

Lemma plain_with_data d m name :
  plain method m name -> plain method (with_data d m) name.
Proof. intros (? & ? & ?). by repeat split. Qed.

Lemma plain_moved_to dst m name :
  plain method m name -> plain method (moved_to dst m) name.
Proof.
  intros (Hne & Hown & Hret). repeat split; [done| |done].
  simpl. by rewrite lookup_insert_ne.
Qed.

Lemma call_each_plain names : forall m,
  Forall (plain method m) names ->
  exists d, call_each method reenter names m
            = (Ok tt, with_data d m, ACall <$> names).
Proof.
  induction names as [|n rest IH]; intros m Hall.
  - exists (Model_data (Machine_model m)). by rewrite with_data_same.
  - inversion Hall as [|?? Hn Hrest]; subst.
    destruct Hn as (Hne & Hown & Hret).
    destruct (Hret m) as (b & d & Hm).
    destruct (IH (with_data d m)) as (d' & Hrec).
    { eapply Forall_impl; [exact Hrest|]. intros. by apply plain_with_data. }
    exists d'. simpl call_each.
    erewrite bind_ok; [|by apply call_attr_own].
    rewrite Hrec. reflexivity.
Qed.

Lemma call_each_failing pre f post x : forall m,
  Forall (plain method m) pre -> failing method m f x ->
  exists d, call_each method reenter (pre ++ f :: post) m
            = (Err x, with_data d m, ACall <$> (pre ++ [f])).
Proof.
  induction pre as [|n rest IH]; intros m Hall Hf.
  - destruct Hf as (Hne & Hown & Hraise).
    destruct (Hraise m) as (d & Hm). exists d. simpl.
    erewrite bind_err; [done|]. by apply call_attr_own.
  - inversion Hall as [|?? Hn Hrest]; subst.
    destruct Hn as (Hne & Hown & Hret).
    destruct (Hret m) as (b & d & Hm).
    destruct (IH (with_data d m)) as (d' & Hrec).
    { eapply Forall_impl; [exact Hrest|]. intros. by apply plain_with_data. }
    { destruct Hf as (? & ? & ?). by repeat split. }
    exists d'. simpl.
    erewrite bind_ok; [|by apply call_attr_own].
    rewrite Hrec. reflexivity.
Qed.

Lemma get_state_registered name st (m : Machine W) :
  Machine_states m !! name = Some st ->
  Machine_get_state name m = (Ok st, m, []).
Proof. intros H. unfold Machine_get_state, bind, get. simpl. by rewrite H. Qed.

Lemma get_state_unregistered name (m : Machine W) :
  Machine_states m !! name = None ->
  Machine_get_state name m
  = (Err (ValueError ("State '" +:+ name +:+ "' is not a registered state.")), m, []).
Proof. intros H. unfold Machine_get_state, bind, get. simpl. by rewrite H. Qed.

Lemma set_state_registered name dst (m : Machine W) :
  Machine_states m !! name = Some dst ->
  Machine_set_state (Some (SName name)) m
  = (Ok tt, moved_to dst m,
     [ASetState (State_name dst); ASetAttr "state" (AStr (State_name dst))]).
Proof.
  intros H. unfold Machine_set_state.
  erewrite bind_ok; [|erewrite bind_ok; [|by apply get_state_registered]; reflexivity].
  reflexivity.
Qed.

Lemma call_each_app xs ys m :
  call_each method reenter (xs ++ ys) m
  = (call_each method reenter xs;; call_each method reenter ys) m.
Proof.
  revert m. induction xs as [|x xs IH]; intros m; simpl.
  - unfold bind, ret. by destruct (call_each method reenter ys m) as [[??]?].
  - unfold bind at 1 2 3.
    destruct (call_attr method reenter x m) as [[[b|e] m1] l1]; [|done].
    rewrite IH. unfold bind.
    destruct (call_each method reenter xs m1) as [[[[]|e] m2] l2]; [|done].
    destruct (call_each method reenter ys m2) as [[r m3] l3].
    by rewrite app_assoc.
Qed.



Lemma built_app l1 l2 : built (l1 ++ l2) = built l1 + built l2.
Proof. induction l1 as [|[] l1 IH]; simpl; lia. Qed.

Lemma built_calls names : built (ACall <$> names) = 0.
Proof. by induction names. Qed.

(** A transition whose guards pass and whose callbacks are plain is
    taken, and runs the protocol. *)
Lemma Transition_execute_taken t (ed : EventData A) m0 m1 lg src dst :
  check_conditions method reenter (Transition_conditions t) m0 = (Ok true, m1, lg) ->
  Machine_states m1 !! Transition_source t = Some src ->
  Machine_states m1 !! Transition_dest t = Some dst ->
  Forall (plain method m1)
    (Transition_before t ++ State_on_exit src ++ State_on_enter dst ++ Transition_after t) ->
  exists d,
    Transition_execute method reenter t ed m0
    = (Ok (true, refreshed dst ed), with_data d (moved_to dst m1),
       lg ++ protocol_log t src dst).
Proof.
  intros Hg Hsrc Hdst Hall.
  apply Forall_app in Hall as [Hb Hall].
  apply Forall_app in Hall as [Hx Hall].
  apply Forall_app in Hall as [He Ha].
  destruct (call_each_plain _ _ Hb) as (d1 & E1).
  destruct (call_each_plain (State_on_exit src) (with_data d1 m1)) as (d2 & E2).
  { eapply Forall_impl; [exact Hx|]. intros. by apply plain_with_data. }
  destruct (call_each_plain (State_on_enter dst) (moved_to dst (with_data d2 m1)))
    as (d3 & E3).
  { eapply Forall_impl; [exact He|]. intros.
    by apply plain_moved_to, plain_with_data. }
  destruct (call_each_plain (Transition_after t)
              (with_data d3 (moved_to dst (with_data d2 m1)))) as (d4 & E4).
  { eapply Forall_impl; [exact Ha|]. intros.
    by apply plain_with_data, plain_moved_to, plain_with_data. }
  exists d4. unfold Transition_execute.
  run_ok (exact Hg). cbn beta iota delta [negb].
  run_ok (exact E1).
  run_ok (apply get_state_registered; exact Hsrc).
  unfold State_exit. run_ok (exact E2).
  run_ok (apply set_state_registered; exact Hdst).
  unfold EventData_update.
  run_ok (erewrite bind_ok by reflexivity; reflexivity).
  run_ok (apply get_state_registered; exact Hdst).
  unfold State_enter. run_ok (exact E3).
  run_ok (exact E4).
  unfold ret, protocol_log. simpl.
  rewrite !app_nil_r. reflexivity.
Qed.

Lemma bind_assoc {X Y Z} (c : M W X) (k1 : X -> M W Y) (k2 : Y -> M W Z) m :
  bind (bind c k1) k2 m = bind c (fun x => bind (k1 x) k2) m.
Proof.
  unfold bind. destruct (c m) as [[[x|e] m1] l1]; [|done].
  destruct (k1 x m1) as [[[y|e] m2] l2]; [|done].
  destruct (k2 y m2) as [[r m3] l3]. by rewrite app_assoc.
Qed.

Lemma bind_ext_l {X Y} (c c' : M W X) (k : X -> M W Y) m :
  c m = c' m -> bind c k m = bind c' k m.
Proof. intros H. unfold bind. by rewrite H. Qed.

(** ** Guards *)

Lemma check_conditions_false pre c post : forall m0 m1 l1 m2 l2,
  check_conditions method reenter pre m0 = (Ok true, m1, l1) ->
  call_attr method reenter c m1 = (Ok false, m2, l2) ->
  check_conditions method reenter (pre ++ c :: post) m0 = (Ok false, m2, l1 ++ l2).
Proof.
  induction pre as [|p pre IH]; intros m0 m1 l1 m2 l2 Hpre Hc.
  - injection Hpre as <- <-. simpl. run_ok (exact Hc).
    unfold ret. by rewrite app_nil_r.
  - simpl in *. unfold bind in Hpre |- *.
    destruct (call_attr method reenter p m0) as [[[[] |e] m'] l']; [| |done].
    + destruct (check_conditions method reenter pre m') as [[r m1'] l1'] eqn:E.
      injection Hpre as -> -> <-.
      erewrite IH by eassumption. by rewrite app_assoc.
    + unfold ret in Hpre. done.
Qed.

Lemma call_attr_quiet c m r m' l :
  quiet method m c ->
  call_attr method reenter c m = (r, m', l) ->
  l = [ACall c] /\ exists d, m' = with_data d m.
Proof.
  intros [Hown Hdata] H. destruct (Hdata m) as (r' & d & Hm).
  erewrite call_attr_own in H by eassumption.
  injection H as <- <- <-. eauto.
Qed.

Lemma quiet_with_data d m c : quiet method m c -> quiet method (with_data d m) c.
Proof. intros [??]. by split. Qed.

Lemma check_conditions_quiet conds : forall m r m' l,
  Forall (quiet method m) conds ->
  check_conditions method reenter conds m = (r, m', l) ->
  (exists d, m' = with_data d m) /\
  (r = Ok true -> l = ACall <$> conds) /\
  exists k, l = ACall <$> take k conds.
Proof.
  induction conds as [|c conds IH]; intros m r m' l Hq H.
  - injection H as <- <- <-. split; [|split; [done|by exists 0]].
    exists (Model_data (Machine_model m)). by rewrite with_data_same.
  - inversion Hq as [|?? Hc Hrest]; subst. simpl in H. unfold bind in H.
    destruct (call_attr method reenter c m) as [[rc mc] lc] eqn:Ec.
    destruct (call_attr_quiet _ _ _ _ _ Hc Ec) as (-> & d & ->).
    destruct rc as [[]|e].
    + destruct (check_conditions method reenter conds (with_data d m))
        as [[r1 m1] l1] eqn:E1.
      injection H as <- <- <-.
      destruct (IH (with_data d m) r1 m1 l1) as ((d' & ->) & Hl & (k & Hk)); [|done|].
      { eapply Forall_impl; [exact Hrest|]. intros. by apply quiet_with_data. }
      split; [by exists d'|]. split.
      * intros Hr. by rewrite (Hl Hr).
      * exists (S k). by rewrite Hk.
    + injection H as <- <- <-. split; [by exists d|]. split; [done|by exists 1].
    + injection H as <- <- <-. split; [by exists d|]. split; [done|by exists 1].
Qed.

Lemma Transition_execute_declined t (ed : EventData A) m m1 l1 :
  check_conditions method reenter (Transition_conditions t) m = (Ok false, m1, l1) ->
  Transition_execute method reenter t ed m = (Ok (false, ed), m1, l1).
Proof.
  intros H. unfold Transition_execute. run_ok (exact H).
  unfold ret. simpl. by rewrite app_nil_r.
Qed.

(** C4.  Guards are evaluated in order and only up to the first one that
    returns false: when the guards [pre] return true and the next guard
    [c] returns false, [execute] returns false with the store and the log
    the guard calls left, whatever guards [post] follow; the event data
    are returned as they were (no refresh).  When these guards are
    members of the model that change its data only, the log is exactly
    the calls of [pre] and [c]: no before, exit, enter or after callback,
    no state change; the machine's current state and the model's
    attributes are as before. *)
Theorem Transition_execute_guard_short_circuit t (ed : EventData A)
    m0 pre c post m1 l1 m2 l2 :
  Transition_conditions t = pre ++ c :: post ->
  check_conditions method reenter pre m0 = (Ok true, m1, l1) ->
  call_attr method reenter c m1 = (Ok false, m2, l2) ->
  Transition_execute method reenter t ed m0 = (Ok (false, ed), m2, l1 ++ l2) /\
  (Forall (quiet method m0) (pre ++ [c]) ->
     l1 ++ l2 = ACall <$> (pre ++ [c]) /\
     Machine_current_state m2 = Machine_current_state m0 /\
     Model_attrs (Machine_model m2) = Model_attrs (Machine_model m0) /\
     exists d, m2 = with_data d m0).
Proof.
  intros Hc Hpre Hcall. split.
  - apply Transition_execute_declined. rewrite Hc.
    by eapply check_conditions_false.
  - intros Hq. apply Forall_app in Hq as [Hq1 Hq2].
    destruct (check_conditions_quiet _ _ _ _ _ Hq1 Hpre) as ((d1 & ->) & Hl1 & _).
    inversion Hq2 as [|?? Hqc _]; subst.
    destruct (call_attr_quiet c (with_data d1 m0) _ _ _
                (quiet_with_data _ _ _ Hqc) Hcall) as (-> & d2 & ->).
    rewrite (Hl1 eq_refl), fmap_app. repeat split. by exists d2.
Qed.


(** ** Event.trigger *)

Lemma try_transitions_declined pre : forall rest (ed : EventData A) m m1 l1,
  declined method reenter pre m m1 l1 ->
  try_transitions method reenter (pre ++ rest) ed m
  = match try_transitions method reenter rest ed m1 with
    | (r, m2, l2) => (r, m2, l1 ++ l2)
    end.
Proof.
  induction pre as [|t pre IH]; intros rest ed m m1 l1 Hd.
  - inversion Hd; subst. simpl.
    by destruct (try_transitions method reenter rest ed m1) as [[??]?].
  - inversion Hd as [|????? la lb Ht Hrest]; subst. simpl.
    run_ok (by apply Transition_execute_declined). simpl.
    rewrite (IH rest ed _ _ _ Hrest).
    destruct (try_transitions method reenter rest ed m1) as [[??]?].
    by rewrite app_assoc.
Qed.

Lemma declined_quiet ts : forall m m1 l1,
  declined method reenter ts m m1 l1 ->
  (forall t, t ∈ ts -> Forall (quiet method m) (Transition_conditions t)) ->
  (exists d, m1 = with_data d m) /\ built l1 = 0.
Proof.
  induction ts as [|t ts IH]; intros m m1 l1 Hd Hq.
  - inversion Hd; subst. split; [|done].
    exists (Model_data (Machine_model m1)). by rewrite with_data_same.
  - inversion Hd as [|????? la lb Ht Hrest]; subst.
    destruct (check_conditions_quiet _ _ _ _ _ (Hq t (list_elem_of_here _ _)) Ht)
      as ((d & ->) & _ & (k & ->)).
    destruct (IH _ _ _ Hrest) as ((d' & ->) & Hb).
    { intros t' Ht'. eapply Forall_impl; [apply Hq; by right|].
      intros. by apply quiet_with_data. }
    split; [by exists d'|]. by rewrite built_app, built_calls, Hb.
Qed.

Lemma Event_trigger_filed e (args : list A) m cur ts :
  Machine_current_state m = Some cur ->
  Event_transitions e !! State_name cur = Some ts ->
  Event_trigger method reenter e args m
  = match try_transitions method reenter ts
            {| EventData_state := Some cur;
               EventData_event := Event_name e;
               EventData_args := args |} m with
    | (r, m2, l2) => (r, m2, ANewEventData :: l2)
    end.
Proof.
  intros Hcur Hts. unfold Event_trigger.
  run_ok reflexivity. rewrite Hcur, Hts.
  run_ok reflexivity. simpl.
  by destruct (try_transitions _ _ _ _ _) as [[??]?].
Qed.

(** C3.  From a state under whose name the event has no transitions
    filed, [trigger] raises MachineError; the store is the one it was
    called in (current state and model included) and the log is empty:
    no event data built, no callback called. *)
Theorem Event_trigger_invalid e (args : list A) m cur :
  Machine_current_state m = Some cur ->
  Event_transitions e !! State_name cur = None ->
  Event_trigger method reenter e args m
  = (Err (MachineError ("Can't trigger event " +:+ Event_name e
                        +:+ " from state " +:+ State_name cur +:+ "!")),
     m, []).
Proof.
  intros Hcur Hnone. unfold Event_trigger.
  run_ok reflexivity. rewrite Hcur, Hnone. reflexivity.
Qed.

(** C8.  No rollback.  The guards pass, the before and exit callbacks
    run, the destination is made current; then a callback [f] among the
    enter callbacks of the destination followed by the after callbacks
    raises [x], the callbacks [pre] before it having returned.
    [execute] ends with that same exception, the callbacks [post] after
    [f] are not called, and the store is left as it was at the failure:
    the destination is the current state and its name is the model's
    [state] attribute.  A [trigger] that tries this transition first ends
    with the same exception and the same store. *)
Theorem Transition_execute_no_rollback t (ed : EventData A)
    m0 m1 lg src dst pre f post x :
  check_conditions method reenter (Transition_conditions t) m0 = (Ok true, m1, lg) ->
  Machine_states m1 !! Transition_source t = Some src ->
  Machine_states m1 !! Transition_dest t = Some dst ->
  Forall (plain method m1) (Transition_before t ++ State_on_exit src) ->
  State_on_enter dst ++ Transition_after t = pre ++ f :: post ->
  Forall (plain method m1) pre ->
  failing method m1 f x ->
  exists m',
    Transition_execute method reenter t ed m0
    = (Err x, m',
       lg ++ (ACall <$> Transition_before t) ++ (ACall <$> State_on_exit src) ++
       [ASetState (State_name dst); ASetAttr "state" (AStr (State_name dst)); AUpdate] ++
       (ACall <$> pre) ++ [ACall f]) /\
    Machine_current_state m' = Some dst /\
    Model_attrs (Machine_model m') !! "state" = Some (AStr (State_name dst)) /\
    (exists d, m' = with_data d (moved_to dst m1)) /\
    forall e cur rest,
      Machine_current_state m0 = Some cur ->
      Event_transitions e !! State_name cur = Some (t :: rest) ->
      ed = {| EventData_state := Some cur;
              EventData_event := Event_name e;
              EventData_args := EventData_args ed |} ->
      Event_trigger method reenter e (EventData_args ed) m0
      = (Err x, m',
         ANewEventData ::
         lg ++ (ACall <$> Transition_before t) ++ (ACall <$> State_on_exit src) ++
         [ASetState (State_name dst); ASetAttr "state" (AStr (State_name dst)); AUpdate] ++
         (ACall <$> pre) ++ [ACall f]).
Proof.
  intros Hg Hsrc Hdst Hall Hsplit Hpre Hf.
  apply Forall_app in Hall as [Hb Hx].
  destruct (call_each_plain _ _ Hb) as (d1 & E1).
  destruct (call_each_plain (State_on_exit src) (with_data d1 m1)) as (d2 & E2).
  { eapply Forall_impl; [exact Hx|]. intros. by apply plain_with_data. }
  destruct (call_each_failing pre f post x (moved_to dst (with_data d2 m1)))
    as (d3 & E3).
  { eapply Forall_impl; [exact Hpre|]. intros.
    by apply plain_moved_to, plain_with_data. }
  { destruct Hf as (Hne & Hown & Hraise). repeat split; [done| |done].
    simpl. by rewrite lookup_insert_ne. }
  assert (E : Transition_execute method reenter t ed m0
     = (Err x, with_data d3 (moved_to dst m1),
        lg ++ (ACall <$> Transition_before t) ++ (ACall <$> State_on_exit src) ++
        [ASetState (State_name dst); ASetAttr "state" (AStr (State_name dst)); AUpdate] ++
        (ACall <$> pre) ++ [ACall f])).
  { unfold Transition_execute.
    run_ok (exact Hg). cbn beta iota delta [negb].
    run_ok (exact E1).
    run_ok (apply get_state_registered; exact Hsrc).
    unfold State_exit. run_ok (exact E2).
    run_ok (apply set_state_registered; exact Hdst).
    unfold EventData_update.
    run_ok (erewrite bind_ok by reflexivity; reflexivity).
    run_ok (apply get_state_registered; exact Hdst).
    unfold State_enter.
    rewrite <- (bind_assoc (call_each method reenter (State_on_enter dst))).
    erewrite bind_ext_l by (symmetry; apply call_each_app).
    rewrite Hsplit. run_err (exact E3).
    simpl. rewrite fmap_app. reflexivity. }
  exists (with_data d3 (moved_to dst m1)).
  split; [exact E|]. split; [done|]. split; [apply lookup_insert_eq|].
  split; [by exists d3|].
  intros e cur rest Hcur Hts Hed.
  rewrite (Event_trigger_filed _ _ _ _ _ Hcur Hts). simpl.
  rewrite <- Hed. by run_err (exact E).
Qed.

End Protocol.

(** ** Configuration: add_transition and the attribute fallback *)

Section Configuration.
Context {W : Type}.
Implicit Types m : Machine W.



(** C10.  [__getattr__] has no final branch: for a name whose first
    underscore-separated term is neither [before] nor [after] and that
    starts with neither [on_enter] nor [on_exit], it returns None, raises
    nothing and leaves the machine as it is. *)
Theorem Machine_getattr_falls_through m name :
  hd EmptyString (split underscore name) ≠ "before" ->
  hd EmptyString (split underscore name) ≠ "after" ->
  startswith name "on_enter" = false ->
  startswith name "on_exit" = false ->
  Machine_getattr name m = (Ok BNone, m, []).
Proof.
  intros Hb Ha He Hx. unfold Machine_getattr.
  rewrite (bool_decide_eq_false_2 _ Hb), (bool_decide_eq_false_2 _ Ha), He, Hx.
  reflexivity.
Qed.

Lemma Machine_getattr_prefixed m kind trigger :
  kind = "before" \/ kind = "after" ->
  Machine_getattr (kind +:+ "_" +:+ trigger) m
  = match Machine_events m !! trigger with
    | None => (Err (MachineError ("Event " +:+ dquote +:+ trigger +:+ dquote
                                  +:+ " is not registered.")), m, [APrint trigger])
    | Some _ => (Err (AttributeError "add_callback"), m, [APrint trigger])
    end.
Proof.
  intros [-> | ->]; unfold Machine_getattr.
  - change ("before" +:+ "_" +:+ trigger) with ("before_" +:+ trigger).
    rewrite split_before. cbn [hd tl]. rewrite join_split.
    change (bool_decide ("before" = "before") || bool_decide ("before" = "after"))
      with true. cbv iota. run_ok reflexivity. run_ok reflexivity.
    by destruct (Machine_events m !! trigger).
  - change ("after" +:+ "_" +:+ trigger) with ("after_" +:+ trigger).
    rewrite split_after. cbn [hd tl]. rewrite join_split.
    change (bool_decide ("after" = "before") || bool_decide ("after" = "after"))
      with true. cbv iota. run_ok reflexivity. run_ok reflexivity.
    by destruct (Machine_events m !! trigger).
Qed.

(** C7.  Reading [before_<trigger>] or [after_<trigger>] on the machine
    raises MachineError when the trigger names no registered event.
    When the event is registered the read itself raises AttributeError:
    [Event] has no member [add_callback], so no registration function is
    returned and nothing is appended. *)
Theorem Machine_getattr_before_after m kind trigger :
  kind = "before" \/ kind = "after" ->
  (Machine_events m !! trigger = None ->
     Machine_getattr (kind +:+ "_" +:+ trigger) m
     = (Err (MachineError ("Event " +:+ dquote +:+ trigger +:+ dquote
                           +:+ " is not registered.")), m, [APrint trigger])) /\
  (forall e, Machine_events m !! trigger = Some e ->
     Machine_getattr (kind +:+ "_" +:+ trigger) m
     = (Err (AttributeError "add_callback"), m, [APrint trigger])).
Proof.
  intros Hk. rewrite (Machine_getattr_prefixed m kind trigger Hk).
  split; [by intros ->|by intros e ->].
Qed.
End Configuration.

(** ** The mirrored state and the state predicates *)

Section Mirrored.
Context {W A : Type}.
Variable method : string -> Machine W -> result bool * Machine W.
Variable reenter : Event -> M W bool.
Implicit Types m : Machine W.

Lemma is_name_inj T S : "is_" +:+ T = "is_" +:+ S -> T = S.
Proof. intros H. by simplify_eq/=. Qed.

Lemma is_name_not_state T : "is_" +:+ T ≠ "state".
Proof. done. Qed.

Lemma call_attr_predicate m T cur :
  Model_attrs (Machine_model m) !! ("is_" +:+ T) = Some (AIsState T) ->
  Machine_current_state m = Some cur ->
  call_attr method reenter ("is_" +:+ T) m
  = (Ok (bool_decide (State_name cur = T)), m, [ACall ("is_" +:+ T)]).
Proof.
  intros Hattr Hcur. unfold call_attr.
  run_ok reflexivity. run_ok reflexivity. rewrite Hattr.
  unfold Machine_is_state. run_ok reflexivity. rewrite Hcur. reflexivity.
Qed.

Lemma mirrors_intro m cur :
  Model_attrs (Machine_model m) !! "state" = Some (AStr (State_name cur)) ->
  Machine_current_state m = Some cur ->
  State_name cur ∈ dom (Machine_states m) ->
  predicates_bound m ->
  mirrors method reenter m (State_name cur).
Proof.
  intros Hst Hcur Hreg Hb. split; [done|]. split.
  - rewrite (call_attr_predicate m _ cur) by auto.
    by rewrite bool_decide_eq_true_2.
  - intros T HT Hne. rewrite (call_attr_predicate m _ cur) by auto.
    by rewrite bool_decide_eq_false_2.
Qed.

Lemma predicates_bound_moved_to dst m :
  predicates_bound m -> predicates_bound (moved_to dst m).
Proof.
  intros Hb T HT. simpl. rewrite lookup_insert_ne by done. by apply Hb.
Qed.

Lemma predicates_bound_with_data d m :
  predicates_bound m -> predicates_bound (with_data d m).
Proof. intros Hb T HT. by apply Hb. Qed.

Lemma register_states_bound descs : forall m,
  predicates_bound m -> keyed_by_name m ->
  exists m' l,
    register_states descs m = (Ok tt, m', l) /\
    predicates_bound m' /\ keyed_by_name m' /\
    Machine_current_state m' = Machine_current_state m /\
    Machine_events m' = Machine_events m.
Proof.
  induction descs as [|d rest IH]; intros m Hb Hk.
  - by exists m, [].
  - set (s := match d with SName name => State_init name PNone PNone | SObj st => st end).
    set (m1 := with_model
                 {| Model_attrs := <["is_" +:+ State_name s := AIsState (State_name s)]>
                                     (Model_attrs (Machine_model m));
                    Model_data := Model_data (Machine_model m) |}
                 (with_states (<[State_name s := s]> (Machine_states m)) m)).
    destruct (IH m1) as (m' & l & Hrun & Hb' & Hk' & Hc' & He').
    { intros T HT. subst m1. simpl in *.
      apply elem_of_dom in HT as [st HT].
      destruct (decide (T = State_name s)) as [->|Hne].
      - apply lookup_insert_eq.
      - rewrite lookup_insert_ne in HT by done.
        rewrite lookup_insert_ne by (intros E; by apply is_name_inj in E).
        apply Hb. apply elem_of_dom. by exists st. }
    { intros k st. subst m1. simpl.
      destruct (decide (k = State_name s)) as [->|Hne].
      - rewrite lookup_insert_eq. by intros [= ->].
      - rewrite lookup_insert_ne by done. apply Hk. }
    exists m'. eexists. split; [|done].
    simpl. fold s. run_ok reflexivity. run_ok reflexivity.
    run_ok reflexivity.
    match goal with
    | |- context [register_states ?a ?b] =>
        change (register_states a b) with (register_states rest m1)
    end.
    rewrite Hrun. reflexivity.
Qed.



Lemma file_transitions_frame trigger dest conditions before after sources :
  forall m (r : result unit) m' l,
    file_transitions trigger sources dest conditions before after m = (r, m', l) ->
    Machine_model m' = Machine_model m /\
    Machine_states m' = Machine_states m /\
    Machine_current_state m' = Machine_current_state m.
Proof.
  induction sources as [|s rest IH]; intros m r m' l H.
  - by injection H as <- <- <-.
  - simpl in H. unfold bind, get, put, raise in H.
    destruct (Machine_events m !! trigger) as [e|]; [|by injection H as <- <- <-].
    destruct (file_transitions _ rest _ _ _ _ _) as [[r1 m1] l1] eqn:E.
    injection H as <- <- <-. by apply IH in E.
Qed.

Lemma add_transition_frame trigger source dest conditions before after m
    (r : result unit) m' l :
  Machine_add_transition trigger source dest conditions before after m = (r, m', l) ->
  Machine_states m' = Machine_states m /\
  Machine_current_state m' = Machine_current_state m /\
  forall k, k ≠ trigger ->
    Model_attrs (Machine_model m') !! k = Model_attrs (Machine_model m) !! k.
Proof.
  unfold Machine_add_transition. intros H.
  unfold bind at 1 in H. unfold get at 1 in H.
  set (m1 := match Machine_events m !! trigger with
             | Some _ => m
             | None =>
                 with_model
                   {| Model_attrs := <[trigger := ATrigger trigger]>
                                       (Model_attrs (Machine_model m));
                      Model_data := Model_data (Machine_model m) |}
                   (with_events (<[trigger := Event_init trigger]> (Machine_events m)) m)
             end).
  assert (Hm1 : Machine_states m1 = Machine_states m /\
                Machine_current_state m1 = Machine_current_state m /\
                forall k, k ≠ trigger ->
                  Model_attrs (Machine_model m1) !! k
                  = Model_attrs (Machine_model m) !! k).
  { unfold m1. destruct (Machine_events m !! trigger); [done|].
    repeat split. intros k Hk. simpl. by rewrite lookup_insert_ne. }
  assert (Hfirst : exists l0,
    (match Machine_events m !! trigger with
     | Some _ => ret tt
     | None =>
         put (with_events (<[trigger := Event_init trigger]> (Machine_events m)) m);;
         setattr_model trigger (ATrigger trigger)
     end) m = (Ok tt, m1, l0)).
  { unfold m1. destruct (Machine_events m !! trigger); by eexists. }
  destruct Hfirst as (l0 & Hfirst).
  erewrite bind_ok in H by exact Hfirst. cbn beta iota in H.
  erewrite bind_ok in H by reflexivity. cbn beta iota in H.
  destruct Hm1 as (Hs & Hc & Ha).
  destruct source as [|src|srcs].
  - unfold bind, raise in H. injection H as <- <- <-. done.
  - erewrite bind_ok in H by reflexivity. cbn beta iota in H.
    destruct (file_transitions _ _ _ _ _ _ _) as [[r1 m2] l2] eqn:E.
    apply file_transitions_frame in E as (Em & Es & Ec).
    injection H as <- <- <-. rewrite Em, Es, Ec. done.
  - erewrite bind_ok in H by reflexivity. cbn beta iota in H.
    destruct (file_transitions _ _ _ _ _ _ _) as [[r1 m2] l2] eqn:E.
    apply file_transitions_frame in E as (Em & Es & Ec).
    injection H as <- <- <-. rewrite Em, Es, Ec. done.
Qed.

Lemma add_transitions_frame descs : forall m (r : result unit) m' l,
  add_transitions descs m = (r, m', l) ->
  Machine_states m' = Machine_states m /\
  Machine_current_state m' = Machine_current_state m /\
  forall k, (forall td, td ∈ descs -> td_trigger td ≠ k) ->
    Model_attrs (Machine_model m') !! k = Model_attrs (Machine_model m) !! k.
Proof.
  induction descs as [|td rest IH]; intros m r m' l H.
  - by injection H as <- <- <-.
  - simpl in H. unfold bind in H.
    destruct (Machine_add_transition _ _ _ _ _ _ m) as [[r1 m1] l1] eqn:E1.
    apply add_transition_frame in E1 as (Hs1 & Hc1 & Ha1).
    destruct r1 as [[]|e].
    + destruct (add_transitions rest m1) as [[r2 m2] l2] eqn:E2.
      apply IH in E2 as (Hs2 & Hc2 & Ha2).
      injection H as <- <- <-.
      split; [congruence|]. split; [congruence|].
      intros k Hk. rewrite Ha2, Ha1; [done| |].
      * intros ->. by apply (Hk td); [apply list_elem_of_here|].
      * intros td' Htd'. apply Hk. by right.
    + injection H as <- <- <-. split; [done|]. split; [done|].
      intros k Hk. apply Ha1. intros ->. by apply (Hk td); [apply list_elem_of_here|].
Qed.

Lemma set_state_ok_inv m r ms ls :
  Machine_set_state (Some r) m = (Ok tt, ms, ls) ->
  exists cur,
    ms = moved_to cur m /\
    match r with
    | SName name => Machine_states m !! name = Some cur
    | SObj st => cur = st
    end.
Proof.
  destruct r as [name|st]; intros H.
  - destruct (Machine_states m !! name) as [cur|] eqn:E.
    + rewrite (set_state_registered name cur m E) in H.
      injection H as <- <-. by exists cur.
    + unfold Machine_set_state in H.
      erewrite bind_err in H; [done|].
      erewrite bind_err; [done|]. by apply get_state_unregistered.
  - injection H as <- <-. by exists st.
Qed.

Lemma construction_mirrors (model : Model W) states r transitions send m l :
  Machine_init model states (Some r) transitions send = (Ok tt, m, l) ->
  ref_name r ∈ dom (Machine_states m) ->
  (forall td, td ∈ default [] transitions ->
     td_trigger td ≠ "state" /\
     forall T, T ∈ dom (Machine_states m) -> td_trigger td ≠ "is_" +:+ T) ->
  mirrors method reenter m (ref_name r) /\ predicates_bound m /\ keyed_by_name m.
Proof.
  unfold Machine_init.
  set (m0 := {| Machine_model := model; Machine_states := ∅; Machine_events := ∅;
                Machine_current_state := None; Machine_send_event := send |}).
  intros H Hreg Htrig.
  assert (Hfirst : exists m1 l1,
    (match states with
     | PNone => ret tt
     | _ => register_states (elems (listify states))
     end) m0 = (Ok tt, m1, l1) /\ predicates_bound m1 /\ keyed_by_name m1).
  { assert (Hb0 : predicates_bound m0).
    { intros T HT. subst m0. simpl in HT. set_solver. }
    assert (Hk0 : keyed_by_name m0).
    { intros k st Hst. subst m0. simpl in Hst. by rewrite lookup_empty in Hst. }
    destruct states as [|d|ds].
    - by exists m0, [].
    - destruct (register_states_bound (elems (listify (POne d))) m0 Hb0 Hk0)
        as (m1 & l1 & ? & ? & ? & _). by exists m1, l1.
    - destruct (register_states_bound (elems (listify (PList ds))) m0 Hb0 Hk0)
        as (m1 & l1 & ? & ? & ? & _). by exists m1, l1. }
  destruct Hfirst as (m1 & l1 & Hfirst & Hb1 & Hk1).
  erewrite bind_ok in H by exact Hfirst. cbn beta iota in H.
  unfold bind at 1 in H.
  destruct (Machine_set_state (Some r) m1) as [[[[]|e] ms] ls] eqn:Es; [|done].
  apply set_state_ok_inv in Es as (cur & -> & Hcur).
  destruct (match transitions with
            | Some ts => add_transitions ts
            | None => ret tt
            end (moved_to cur m1)) as [[r3 m3] l3] eqn:E3.
  injection H as -> -> <-.
  assert (Hframe : Machine_states m = Machine_states m1 /\
                   Machine_current_state m = Some cur /\
                   forall k, (forall td, td ∈ default [] transitions -> td_trigger td ≠ k) ->
                     Model_attrs (Machine_model m) !! k
                     = Model_attrs (Machine_model (moved_to cur m1)) !! k).
  { destruct transitions as [ts|].
    - by apply add_transitions_frame in E3.
    - by injection E3 as <-. }
  destruct Hframe as (Hs & Hc & Ha).
  assert (Hname : State_name cur = ref_name r).
  { destruct r as [name|st]; simpl; [by apply Hk1|by subst]. }
  assert (Hb : predicates_bound m).
  { intros T HT. rewrite Ha.
    - simpl. rewrite lookup_insert_ne by done. apply Hb1. by rewrite <- Hs.
    - intros td Htd. by apply Htrig. }
  assert (Hk : keyed_by_name m).
  { intros k st. rewrite Hs. apply Hk1. }
  split; [|done]. rewrite <- Hname. apply mirrors_intro; [|done| |done].
  - rewrite Ha; [apply lookup_insert_eq|]. intros td Htd. by apply Htrig.
  - by rewrite Hname.
Qed.

End Mirrored.

(** ** The engine on the concrete machines *)

Ltac demo_plain :=
  split; [done|split; [vm_compute; reflexivity|intros ?; eexists _, _; reflexivity]].
Ltac demo_failing :=
  split; [done|split; [vm_compute; reflexivity|intros ?; eexists; reflexivity]].
Ltac demo_quiet :=
  split; [vm_compute; reflexivity|intros ?; eexists _, _; reflexivity].
Ltac demo_all tac :=
  match goal with
  | |- Forall ?P ?l => let l' := eval vm_compute in l in change (Forall P l')
  end;
  repeat (apply Forall_cons; split; [tac|]); constructor.



Lemma Event_trigger_invalid_witness :
  Event_trigger Demo.method (Demo.trigger_at 8) Demo.evaporate_event [tt] Demo.at_solid
  = (Err (MachineError "Can't trigger event evaporate from state solid!"),
     Demo.at_solid, []).
Proof.
  apply (Event_trigger_invalid Demo.method (Demo.trigger_at 8) Demo.evaporate_event
           [tt] Demo.at_solid Demo.solid).
  - vm_compute; reflexivity.
  - vm_compute; reflexivity.
Defined.

Lemma Transition_execute_guard_short_circuit_witness :
  Transition_execute Demo.method (Demo.trigger_at 8) Demo.guarded
    (Demo.context Demo.solid "melt") Demo.at_solid
  = (Ok (false, Demo.context Demo.solid "melt"),
     with_data ["is_hot"; "is_cold"] Demo.at_solid,
     [ACall "is_hot"; ACall "is_cold"]) /\
  Machine_current_state (with_data ["is_hot"; "is_cold"] Demo.at_solid)
  = Machine_current_state Demo.at_solid.
Proof.
  destruct (Transition_execute_guard_short_circuit Demo.method (Demo.trigger_at 8)
              Demo.guarded (Demo.context Demo.solid "melt") Demo.at_solid
              ["is_hot"] "is_cold" ["never"]
              (with_data ["is_hot"] Demo.at_solid) [ACall "is_hot"]
              (with_data ["is_hot"; "is_cold"] Demo.at_solid) [ACall "is_cold"])
    as (E & Hq).
  - reflexivity.
  - vm_compute; reflexivity.
  - vm_compute; reflexivity.
  - destruct Hq as (_ & Hcur & _).
    + demo_all demo_quiet.
    + split; [exact E|exact Hcur].
Defined.

Lemma Transition_execute_no_rollback_witness :
  exists m',
    Transition_execute Demo.method (Demo.trigger_at 8) Demo.heat
      (Demo.context Demo.cold "heat") Demo.kettle
    = (Err (UserError "boom"), m',
       [ACall "b"; ACall "leave_cold"; ASetState "hot";
        ASetAttr "state" (AStr "hot"); AUpdate; ACall "hiss"; ACall "boom"]) /\
    Machine_current_state m' = Some Demo.hot /\
    Model_attrs (Machine_model m') !! "state" = Some (AStr "hot") /\
    Event_trigger Demo.method (Demo.trigger_at 8) Demo.heat_event (@nil unit) Demo.kettle
    = (Err (UserError "boom"), m',
       [ANewEventData; ACall "b"; ACall "leave_cold"; ASetState "hot";
        ASetAttr "state" (AStr "hot"); AUpdate; ACall "hiss"; ACall "boom"]).
Proof.
  destruct (Transition_execute_no_rollback Demo.method (Demo.trigger_at 8) Demo.heat
              (Demo.context Demo.cold "heat") Demo.kettle Demo.kettle []
              Demo.cold Demo.hot ["hiss"] "boom" ["late"; "a"] (UserError "boom"))
    as (m' & E & Hcur & Hst & _ & Htrig).
  - reflexivity.
  - vm_compute; reflexivity.
  - vm_compute; reflexivity.
  - demo_all demo_plain.
  - reflexivity.
  - demo_all demo_plain.
  - demo_failing.
  - exists m'. split; [exact E|]. split; [exact Hcur|]. split; [exact Hst|].
    apply (Htrig Demo.heat_event Demo.cold []).
    + vm_compute; reflexivity.
    + vm_compute; reflexivity.
    + reflexivity.
Defined.

Lemma Machine_getattr_falls_through_witness :
  Machine_getattr "foo_bar" Demo.at_solid = (Ok BNone, Demo.at_solid, []).
Proof.
  apply (Machine_getattr_falls_through Demo.at_solid "foo_bar").
  - vm_compute. discriminate.
  - vm_compute. discriminate.
  - reflexivity.
  - reflexivity.
Defined.

Lemma Machine_getattr_before_after_witness :
  Machine_getattr "before_nothing" Demo.at_solid
  = (Err (MachineError ("Event " +:+ dquote +:+ "nothing" +:+ dquote
                        +:+ " is not registered.")),
     Demo.at_solid, [APrint "nothing"]) /\
  Machine_getattr "after_melt" Demo.at_solid
  = (Err (AttributeError "add_callback"), Demo.at_solid, [APrint "melt"]).
Proof.
  split.
  - destruct (Machine_getattr_before_after Demo.at_solid "before" "nothing"
                (or_introl eq_refl)) as (H & _).
    apply H. vm_compute; reflexivity.
  - destruct (Machine_getattr_before_after Demo.at_solid "after" "melt"
                (or_intror eq_refl)) as (_ & H).
    destruct (Machine_events Demo.at_solid !! "melt") as [e|] eqn:E.
    + exact (H e eq_refl).
    + vm_compute in E. discriminate.
Defined.


(** C6.  On the machine whose descriptor for [melt] gives no callbacks,
    reading [before_melt] or [after_melt] raises AttributeError and
    leaves the machine as it is, so that nothing can be registered that
    way: [melt()] then calls no before and no after callback, whereas on
    the machine whose descriptor lists [b1], [b2] and [a1], [a2] they are
    called in that order around the state change. *)
Theorem resolver_registers_nothing :
  Machine_getattr "before_melt" Demo.bare
  = (Err (AttributeError "add_callback"), Demo.bare, [APrint "melt"]) /\
  Machine_getattr "after_melt" Demo.bare
  = (Err (AttributeError "add_callback"), Demo.bare, [APrint "melt"]) /\
  snd (call_attr Demo.method (Demo.trigger_at 8) "melt" Demo.bare)
  = [ACall "melt"; ANewEventData; ACall "leave_solid";
     ASetState "liquid"; ASetAttr "state" (AStr "liquid"); AUpdate;
     ACall "enter_liquid"; ACall "wet"] /\
  snd (call_attr Demo.method (Demo.trigger_at 8) "melt" Demo.at_solid)
  = [ACall "melt"; ANewEventData; ACall "b1"; ACall "b2"; ACall "leave_solid";
     ASetState "liquid"; ASetAttr "state" (AStr "liquid"); AUpdate;
     ACall "enter_liquid"; ACall "wet"; ACall "a1"; ACall "a2"].
Proof. repeat split; vm_compute; reflexivity. Qed.




(** * Further properties of the module *)

(** ** Callback arguments *)

(** X1.  A callback argument that is one name stands for the list of
    that name: [listify] is idempotent and a [Transition] built from the
    listified arguments is the one built from the arguments.  [State]
    agrees except on the empty string: [State] takes the empty string,
    like None and the empty list, for no callback, whereas [Transition]
    takes it for a callback of that name. *)
Theorem callback_arguments_normalised :
  (forall o : pyarg string, listify (listify o) = listify o) /\
  (forall s d c b a,
     Transition_init s d (listify c) (listify b) (listify a) = Transition_init s d c b a) /\
  (forall name e x,
     e ≠ POne EmptyString -> x ≠ POne EmptyString ->
     State_init name (listify e) (listify x) = State_init name e x) /\
  (forall name x,
     State_on_enter (State_init name (POne EmptyString) x) = [] /\
     State_on_enter (State_init name PNone x) = [] /\
     State_on_enter (State_init name (PList []) x) = []) /\
  (forall s d c a,
     Transition_before (Transition_init s d c (POne EmptyString) a) = [EmptyString]).
Proof.
  split; [by intros []|]. split; [by intros s d [] [] []|]. split.
  - intros name e x He Hx. unfold State_init. f_equal.
    + destruct e as [|s|l]; [done| |done].
      simpl. destruct (String.eqb_spec s EmptyString) as [->|]; done.
    + destruct x as [|s|l]; [done| |done].
      simpl. destruct (String.eqb_spec s EmptyString) as [->|]; done.
  - done.
Qed.

Lemma callback_arguments_normalised_witness :
  State_init "s" (listify (POne "f")) (listify PNone) = State_init "s" (POne "f") PNone.
Proof.
  destruct callback_arguments_normalised as (_ & _ & H & _).
  apply H; discriminate.
Defined.

(** ** List objects and the objects that hold them *)

Lemma live_lt (h : heap) l : live h l <-> l < length h.
Proof. apply lookup_lt_is_Some. Qed.

Lemma content_live (h : heap) l : live h l -> h !! l = Some (content h l).
Proof. intros [xs E]. unfold content. by rewrite E. Qed.

Lemma list_append_lookup l x (h : heap) l' :
  live h l ->
  list_append l x h !! l'
  = if decide (l' = l) then Some (content h l' ++ [x]) else h !! l'.
Proof.
  intros Hl. unfold list_append. destruct (decide (l' = l)) as [->|Hne].
  - by rewrite list_lookup_alter_eq, (content_live h l Hl).
  - by rewrite list_lookup_alter_ne.
Qed.

Lemma list_append_content l x (h : heap) l' :
  live h l ->
  content (list_append l x h) l'
  = content h l' ++ (if decide (l' = l) then [x] else []).
Proof.
  intros Hl. unfold content at 1. rewrite list_append_lookup by done.
  destruct (decide (l' = l)); [done|]. by rewrite app_nil_r.
Qed.

Lemma list_append_live l x (h : heap) l' :
  live (list_append l x h) l' <-> live h l'.
Proof. rewrite !live_lt. unfold list_append. by rewrite length_alter. Qed.

Lemma new_list_old xs (h : heap) l0 :
  live h l0 -> (h ++ [xs]) !! l0 = h !! l0.
Proof. intros Hl. apply lookup_app_l. by apply live_lt. Qed.

Lemma new_list_content xs (h : heap) : content (h ++ [xs]) (length h) = xs.
Proof. unfold content. by rewrite list_lookup_middle. Qed.

Lemma new_list_live xs (h : heap) : live (h ++ [xs]) (length h).
Proof. apply live_lt. rewrite length_app. simpl. lia. Qed.

Lemma content_old (h h' : heap) l0 :
  (forall l, live h l -> h' !! l = h !! l) -> live h l0 -> content h' l0 = content h l0.
Proof. intros H Hl. unfold content. by rewrite H. Qed.

Lemma pyref_value_old (h h' : heap) obj :
  (forall l, live h l -> h' !! l = h !! l) -> pyref_live h obj ->
  pyref_value h' obj = pyref_value h obj.
Proof.
  intros H Hl. destruct obj as [|s|l]; [done|done|].
  simpl. f_equal. by apply content_old.
Qed.

Lemma live_old (h h' : heap) l0 :
  (forall l, live h l -> h' !! l = h !! l) -> live h l0 -> live h' l0.
Proof. intros H Hl. unfold live. by rewrite H. Qed.

Lemma pyref_live_old (h h' : heap) obj :
  (forall l, live h l -> h' !! l = h !! l) -> pyref_live h obj -> pyref_live h' obj.
Proof. intros H Hl. destruct obj as [|s|l]; [done|done|]. by eapply live_old. Qed.

(** The list [State.__init__] stores for an argument: its content is
    the value [State_init] computes, it is the caller's object when the
    argument is a list that is not empty, and the objects that existed
    are as they were. *)
Lemma State_callbacks_spec obj (h : heap) l h' :
  pyref_live h obj ->
  State_callbacks obj h = (l, h') ->
  live h' l /\
  content h' l
  = (if truthy (pyref_value h obj) then elems (listify (pyref_value h obj)) else []) /\
  (forall l0, live h l0 -> h' !! l0 = h !! l0) /\
  (forall l0, obj = RList l0 -> content h l0 ≠ [] -> l = l0 /\ h' = h) /\
  (forall l0, obj = RList l0 -> content h l0 = [] -> l = length h /\ l ≠ l0).
Proof.
  intros Hl. unfold State_callbacks, truthy_ref.
  destruct obj as [|s|l0]; simpl.
  - intros [= <- <-]. split; [apply new_list_live|]. split; [apply new_list_content|].
    split; [apply new_list_old|]. by split.
  - destruct (String.eqb s EmptyString); simpl; intros [= <- <-];
      (split; [apply new_list_live|]); (split; [apply new_list_content|]);
      (split; [apply new_list_old|]); by split.
  - case_bool_decide as E; simpl.
    + intros [= <- <-]. split; [apply new_list_live|]. split; [apply new_list_content|].
      split; [apply new_list_old|]. split.
      * by intros ? [= <-] ?.
      * intros ? [= <-] _. split; [done|]. simpl in Hl. apply live_lt in Hl. lia.
    + intros [= <- <-]. split; [done|]. split; [done|]. split; [done|]. split.
      * by intros ? [= <-] _.
      * by intros ? [= <-] ?.
Qed.

(** The same for [Transition.__init__]: only None gives a new empty
    list, a list is kept even when it is empty. *)
Lemma Transition_callbacks_spec obj (h : heap) l h' :
  pyref_live h obj ->
  Transition_callbacks obj h = (l, h') ->
  live h' l /\
  content h' l
  = match pyref_value h obj with PNone => [] | v => elems (listify v) end /\
  (forall l0, live h l0 -> h' !! l0 = h !! l0) /\
  (forall l0, obj = RList l0 -> l = l0 /\ h' = h).
Proof.
  intros Hl. unfold Transition_callbacks.
  destruct obj as [|s|l0]; simpl; intros [= <- <-].
  - split; [apply new_list_live|]. split; [apply new_list_content|].
    split; [apply new_list_old|]. done.
  - split; [apply new_list_live|]. split; [apply new_list_content|].
    split; [apply new_list_old|]. done.
  - split; [done|]. split; [done|]. split; [done|]. by intros ? [= <-].
Qed.

Lemma StateObj_init_view name e x (h : heap) so h' :
  pyref_live h e -> pyref_live h x ->
  StateObj_init name e x h = (so, h') ->
  State_live h' so /\
  State_view h' so = State_init name (pyref_value h e) (pyref_value h x) /\
  (forall l0, live h l0 -> h' !! l0 = h !! l0) /\
  (forall l0, e = RList l0 -> content h l0 ≠ [] -> StateObj_on_enter so = l0) /\
  (forall l0, x = RList l0 -> content h l0 ≠ [] -> StateObj_on_exit so = l0) /\
  (forall l0, e = RList l0 -> content h l0 = [] -> StateObj_on_enter so ≠ l0) /\
  (forall l0, x = RList l0 -> content h l0 = [] -> StateObj_on_exit so ≠ l0).
Proof.
  intros He Hx. unfold StateObj_init.
  destruct (State_callbacks e h) as [le h1] eqn:E1.
  destruct (State_callbacks x h1) as [lx h2] eqn:E2.
  intros [= <- <-].
  destruct (State_callbacks_spec e h le h1 He E1) as (Hle & Hce & Ho1 & Hie & Hne).
  assert (Hx1 : pyref_live h1 x) by (by eapply pyref_live_old).
  destruct (State_callbacks_spec x h1 lx h2 Hx1 E2) as (Hlx & Hcx & Ho2 & Hix & Hnx).
  split; [split; [exact (live_old h1 h2 le Ho2 Hle)|done]|].
  split; [|split; [|split; [|split; [|split]]]].
  - unfold State_view, State_init. simpl. f_equal.
    + by rewrite (content_old h1 h2 le Ho2 Hle).
    + by rewrite Hcx, (pyref_value_old h h1 x Ho1 Hx).
  - intros l0 Hl0. rewrite Ho2 by (by eapply live_old). by apply Ho1.
  - intros l0 -> Hne0. simpl. by destruct (Hie l0).
  - intros l0 -> Hne0. simpl. destruct (Hix l0) as [-> _]; [done| |done].
    by rewrite (content_old h h1 l0 Ho1 Hx).
  - intros l0 -> He0. simpl. by destruct (Hne l0).
  - intros l0 -> Hx0. simpl. destruct (Hnx l0) as [_ ?]; [done| |done].
    by rewrite (content_old h h1 l0 Ho1 Hx).
Qed.

Lemma TransitionObj_init_view source dest c b a (h : heap) t h' :
  pyref_live h c -> pyref_live h b -> pyref_live h a ->
  TransitionObj_init source dest c b a h = (t, h') ->
  Transition_live h' t /\
  Transition_view h' t
  = Transition_init source dest (pyref_value h c) (pyref_value h b) (pyref_value h a) /\
  (forall l0, live h l0 -> h' !! l0 = h !! l0) /\
  (forall l0, b = RList l0 -> TransitionObj_before t = l0) /\
  (forall l0, a = RList l0 -> TransitionObj_after t = l0) /\
  (forall l0, c = RList l0 -> TransitionObj_conditions t = l0).
Proof.
  intros Hc Hb Ha. unfold TransitionObj_init.
  destruct (Transition_callbacks b h) as [lb h1] eqn:E1.
  destruct (Transition_callbacks a h1) as [la h2] eqn:E2.
  destruct (Transition_callbacks c h2) as [lc h3] eqn:E3.
  intros [= <- <-].
  destruct (Transition_callbacks_spec b h lb h1 Hb E1) as (Hlb & Hcb & Ho1 & Hib).
  assert (Ha1 : pyref_live h1 a) by (by eapply pyref_live_old).
  destruct (Transition_callbacks_spec a h1 la h2 Ha1 E2) as (Hla & Hca & Ho2 & Hia).
  assert (Ho12 : forall l0, live h l0 -> h2 !! l0 = h !! l0).
  { intros l0 Hl0. rewrite Ho2 by (by eapply live_old). by apply Ho1. }
  assert (Hc2 : pyref_live h2 c) by (by eapply pyref_live_old).
  destruct (Transition_callbacks_spec c h2 lc h3 Hc2 E3) as (Hlc & Hcc & Ho3 & Hic).
  assert (Hlb2 : live h2 lb) by exact (live_old h1 h2 lb Ho2 Hlb).
  split; [split; [exact (live_old h2 h3 lb Ho3 Hlb2)|
                  split; [exact (live_old h2 h3 la Ho3 Hla)|done]]|].
  split; [|split; [|split; [|split]]].
  - unfold Transition_view, Transition_init. simpl. f_equal.
    + rewrite (content_old h2 h3 lb Ho3 Hlb2), (content_old h1 h2 lb Ho2 Hlb), Hcb.
      by destruct (pyref_value h b).
    + rewrite (content_old h2 h3 la Ho3 Hla), Hca, (pyref_value_old h h1 a Ho1 Ha).
      by destruct (pyref_value h a).
    + rewrite Hcc, (pyref_value_old h h2 c Ho12 Hc).
      by destruct (pyref_value h c).
  - intros l0 Hl0. rewrite Ho3 by (by eapply live_old). by apply Ho12.
  - intros l0 ->. simpl. by destruct (Hib l0).
  - intros l0 ->. simpl. by destruct (Hia l0).
  - intros l0 ->. simpl. by destruct (Hic l0).
Qed.

Lemma Transition_add_callback_before inherited f t (h : heap) :
  Transition_add_callback inherited "before" f t h
  = (Ok tt, list_append (TransitionObj_before t) f h).
Proof. reflexivity. Qed.

Lemma Transition_add_callback_after inherited g t (h : heap) :
  Transition_add_callback inherited "after" g t h
  = (Ok tt, list_append (TransitionObj_after t) g h).
Proof. reflexivity. Qed.

Lemma Transition_add_callback_conditions inherited g t (h : heap) :
  Transition_add_callback inherited "conditions" g t h
  = (Ok tt, list_append (TransitionObj_conditions t) g h).
Proof. reflexivity. Qed.

Lemma State_add_callback_enter f so (h : heap) :
  State_add_callback "enter" f so h = (Ok tt, list_append (StateObj_on_enter so) f h).
Proof. reflexivity. Qed.

Lemma State_add_callback_exit f so (h : heap) :
  State_add_callback "exit" f so h = (Ok tt, list_append (StateObj_on_exit so) f h).
Proof. reflexivity. Qed.

Lemma State_add_callback_other kind f so (h : heap) :
  kind ≠ "enter" -> kind ≠ "exit" ->
  State_add_callback kind f so h = (Err (AttributeError ("on_" +:+ kind)), h).
Proof.
  intros H1 H2. unfold State_add_callback, State_getattr_on.
  rewrite bool_decide_eq_false_2.
  - rewrite bool_decide_eq_false_2; [done|].
    intros E. apply H2. by injection E.
  - intros E. apply H1. by injection E.
Qed.

Section Registration.
Context {W A : Type}.
Variable method : string -> Machine W -> result bool * Machine W.
Variable reenter : Event -> M W bool.
Implicit Types m : Machine W.

(** X2.  [State.enter] and [State.exit] call the callbacks of their list
    once each, in list order, and stop at the first one that raises: the
    exception is theirs and the callbacks after it are not called.  With
    callbacks that are plain members of the model only the model's data
    change. *)
Theorem State_enter_exit_in_order st m :
  (Forall (plain method m) (State_on_enter st) ->
     exists d, State_enter method reenter st m
               = (Ok tt, with_data d m, ACall <$> State_on_enter st)) /\
  (Forall (plain method m) (State_on_exit st) ->
     exists d, State_exit method reenter st m
               = (Ok tt, with_data d m, ACall <$> State_on_exit st)) /\
  (forall pre f post x,
     State_on_enter st = pre ++ f :: post ->
     Forall (plain method m) pre -> failing method m f x ->
     exists d, State_enter method reenter st m
               = (Err x, with_data d m, ACall <$> (pre ++ [f]))) /\
  (forall pre f post x,
     State_on_exit st = pre ++ f :: post ->
     Forall (plain method m) pre -> failing method m f x ->
     exists d, State_exit method reenter st m
               = (Err x, with_data d m, ACall <$> (pre ++ [f]))).
Proof.
  unfold State_enter, State_exit. repeat split.
  - apply call_each_plain.
  - apply call_each_plain.
  - intros pre f post x -> Hpre Hf. by apply call_each_failing.
  - intros pre f post x -> Hpre Hf. by apply call_each_failing.
Qed.

(** X3.  A [State] holds list objects.  The constructor keeps a list the
    caller passes when it is not empty, so that the caller, the two
    attributes and other objects may share it, and makes a new list in
    place of an empty one; its snapshot is the state [State_init] gives,
    and the objects that existed are as they were.
    [State.add_callback] with [enter] appends, in place, to the list
    object held as [on_enter] and with [exit] to the one held as
    [on_exit]: that object gets the name at its end and every other list
    object is as it was.  Entering (leaving) the state then calls the
    earlier callbacks in order and the new one last.  The other list of
    the state is unchanged when it is another object, and has the new
    name at its end too when the two are one object.  Any other kind
    raises AttributeError and changes nothing. *)
Theorem State_add_callback_appends :
  (forall name e x (h : heap) so h',
     pyref_live h e -> pyref_live h x ->
     StateObj_init name e x h = (so, h') ->
     State_live h' so /\
     State_view h' so = State_init name (pyref_value h e) (pyref_value h x) /\
     (forall l, live h l -> h' !! l = h !! l) /\
     (forall l, e = RList l -> content h l ≠ [] -> StateObj_on_enter so = l) /\
     (forall l, x = RList l -> content h l ≠ [] -> StateObj_on_exit so = l) /\
     (forall l, e = RList l -> content h l = [] -> StateObj_on_enter so ≠ l) /\
     (forall l, x = RList l -> content h l = [] -> StateObj_on_exit so ≠ l)) /\
  (forall so f (h : heap),
     State_live h so ->
     exists h',
       State_add_callback "enter" f so h = (Ok tt, h') /\
       (forall l, h' !! l = if decide (l = StateObj_on_enter so)
                            then Some (content h l ++ [f]) else h !! l) /\
       State_name (State_view h' so) = State_name (State_view h so) /\
       State_on_enter (State_view h' so) = State_on_enter (State_view h so) ++ [f] /\
       State_on_exit (State_view h' so)
       = State_on_exit (State_view h so)
         ++ (if decide (StateObj_on_exit so = StateObj_on_enter so) then [f] else []) /\
       forall m, Forall (plain method m) (State_on_enter (State_view h so) ++ [f]) ->
         exists d, State_enter method reenter (State_view h' so) m
                   = (Ok tt, with_data d m,
                      (ACall <$> State_on_enter (State_view h so)) ++ [ACall f])) /\
  (forall so f (h : heap),
     State_live h so ->
     exists h',
       State_add_callback "exit" f so h = (Ok tt, h') /\
       (forall l, h' !! l = if decide (l = StateObj_on_exit so)
                            then Some (content h l ++ [f]) else h !! l) /\
       State_name (State_view h' so) = State_name (State_view h so) /\
       State_on_exit (State_view h' so) = State_on_exit (State_view h so) ++ [f] /\
       State_on_enter (State_view h' so)
       = State_on_enter (State_view h so)
         ++ (if decide (StateObj_on_enter so = StateObj_on_exit so) then [f] else []) /\
       forall m, Forall (plain method m) (State_on_exit (State_view h so) ++ [f]) ->
         exists d, State_exit method reenter (State_view h' so) m
                   = (Ok tt, with_data d m,
                      (ACall <$> State_on_exit (State_view h so)) ++ [ACall f])) /\
  (forall kind f so (h : heap), kind ≠ "enter" -> kind ≠ "exit" ->
     State_add_callback kind f so h = (Err (AttributeError ("on_" +:+ kind)), h)).
Proof.
  split; [|split; [|split]].
  - intros name e x h so h' He Hx E.
    by apply StateObj_init_view.
  - intros so f h [He Hx]. eexists. split; [apply State_add_callback_enter|].
    split; [intros l; by apply list_append_lookup|]. split; [done|].
    assert (E1 : State_on_enter (State_view (list_append (StateObj_on_enter so) f h) so)
                 = State_on_enter (State_view h so) ++ [f]).
    { simpl. rewrite list_append_content by done. by rewrite decide_True. }
    split; [exact E1|]. split; [simpl; by rewrite list_append_content|].
    intros m Hall. unfold State_enter. rewrite E1.
    destruct (call_each_plain method reenter _ m Hall) as (d & E).
    exists d. by rewrite E, fmap_app.
  - intros so f h [He Hx]. eexists. split; [apply State_add_callback_exit|].
    split; [intros l; by apply list_append_lookup|]. split; [done|].
    assert (E1 : State_on_exit (State_view (list_append (StateObj_on_exit so) f h) so)
                 = State_on_exit (State_view h so) ++ [f]).
    { simpl. rewrite list_append_content by done. by rewrite decide_True. }
    split; [exact E1|]. split; [simpl; by rewrite list_append_content|].
    intros m Hall. unfold State_exit. rewrite E1.
    destruct (call_each_plain method reenter _ m Hall) as (d & E).
    exists d. by rewrite E, fmap_app.
  - intros. by apply State_add_callback_other.
Qed.

(** X4.  A [Transition] holds list objects.  The constructor keeps
    every list the caller passes, an empty one too, so that the three
    attributes, the caller and the other transitions built from the same
    arguments may share it; its snapshot is the transition
    [Transition_init] gives.  [Transition.add_callback] accepts
    [conditions] as it accepts [before] and [after]: the name is appended
    in place to the list object held as [conditions], every other list
    object is as it was, and the before (after) callbacks get the name
    too exactly when they are that same object.  The new guard is
    evaluated after the earlier ones: when those pass and the new one
    returns false, [execute] reports not-taken. *)
Theorem Transition_add_callback_guard :
  (forall source dest c b a (h : heap) t h',
     pyref_live h c -> pyref_live h b -> pyref_live h a ->
     TransitionObj_init source dest c b a h = (t, h') ->
     Transition_live h' t /\
     Transition_view h' t
     = Transition_init source dest (pyref_value h c) (pyref_value h b) (pyref_value h a) /\
     (forall l, live h l -> h' !! l = h !! l) /\
     (forall l, b = RList l -> TransitionObj_before t = l) /\
     (forall l, a = RList l -> TransitionObj_after t = l) /\
     (forall l, c = RList l -> TransitionObj_conditions t = l)) /\
  (forall inherited t g (h : heap),
     Transition_live h t ->
     exists h',
       Transition_add_callback inherited "conditions" g t h = (Ok tt, h') /\
       (forall l, h' !! l = if decide (l = TransitionObj_conditions t)
                            then Some (content h l ++ [g]) else h !! l) /\
       Transition_source (Transition_view h' t) = Transition_source (Transition_view h t) /\
       Transition_dest (Transition_view h' t) = Transition_dest (Transition_view h t) /\
       Transition_conditions (Transition_view h' t)
       = Transition_conditions (Transition_view h t) ++ [g] /\
       Transition_before (Transition_view h' t)
       = Transition_before (Transition_view h t)
         ++ (if decide (TransitionObj_before t = TransitionObj_conditions t)
             then [g] else []) /\
       Transition_after (Transition_view h' t)
       = Transition_after (Transition_view h t)
         ++ (if decide (TransitionObj_after t = TransitionObj_conditions t)
             then [g] else []) /\
       forall (ed : EventData A) m0 m1 lg m2 l2,
         check_conditions method reenter (Transition_conditions (Transition_view h t)) m0
         = (Ok true, m1, lg) ->
         call_attr method reenter g m1 = (Ok false, m2, l2) ->
         Transition_execute method reenter (Transition_view h' t) ed m0
         = (Ok (false, ed), m2, lg ++ l2)).
Proof.
  split.
  - intros source dest c b a h t h' Hc Hb Ha E.
    by apply TransitionObj_init_view.
  - intros inherited t g h (Hb & Ha & Hc).
    eexists. split; [apply Transition_add_callback_conditions|].
    split; [intros l; by apply list_append_lookup|]. split; [done|]. split; [done|].
    assert (E1 : Transition_conditions
                   (Transition_view (list_append (TransitionObj_conditions t) g h) t)
                 = Transition_conditions (Transition_view h t) ++ [g]).
    { simpl. rewrite list_append_content by done. by rewrite decide_True. }
    split; [exact E1|].
    split; [simpl; by rewrite list_append_content|].
    split; [simpl; by rewrite list_append_content|].
    intros ed m0 m1 lg m2 l2 Hg Hfalse.
    apply Transition_execute_declined. rewrite E1.
    by eapply check_conditions_false.
Qed.

(** X5.  After [add_callback('before', f)] and then
    [add_callback('after', g)] on a transition, every list object has
    got [f] at its end if it is the one held as [before], and then [g]
    if it is the one held as [after]; nothing else has changed.  So when
    the two are different objects [f] is the last before callback and
    [g] the last after callback, and when they are one object both lists
    end with [f], [g].  A taken transition calls them in that order: the
    before callbacks, the exit callbacks of the source, the state
    change, the enter callbacks of the destination, the after callbacks.
    A kind other than [before], [after] and [conditions] raises
    AttributeError and changes nothing: for want of [append] when the
    kind names another member of the transition, for want of the member
    otherwise. *)
Theorem Transition_add_callback_order :
  (forall inherited t f g (h : heap),
     Transition_live h t ->
     exists h1 h2,
       Transition_add_callback inherited "before" f t h = (Ok tt, h1) /\
       Transition_add_callback inherited "after" g t h1 = (Ok tt, h2) /\
       (forall l,
          content h2 l
          = content h l
            ++ (if decide (l = TransitionObj_before t) then [f] else [])
            ++ (if decide (l = TransitionObj_after t) then [g] else [])) /\
       (forall l, live h2 l <-> live h l) /\
       Transition_before (Transition_view h2 t)
       = Transition_before (Transition_view h t) ++ [f]
         ++ (if decide (TransitionObj_before t = TransitionObj_after t)
             then [g] else []) /\
       Transition_after (Transition_view h2 t)
       = Transition_after (Transition_view h t)
         ++ (if decide (TransitionObj_after t = TransitionObj_before t)
             then [f] else []) ++ [g] /\
       forall (ed : EventData A) m0 m1 lg src dst,
         check_conditions method reenter (Transition_conditions (Transition_view h2 t)) m0
         = (Ok true, m1, lg) ->
         Machine_states m1 !! TransitionObj_source t = Some src ->
         Machine_states m1 !! TransitionObj_dest t = Some dst ->
         Forall (plain method m1)
           (Transition_before (Transition_view h2 t) ++ State_on_exit src
            ++ State_on_enter dst ++ Transition_after (Transition_view h2 t)) ->
         exists d,
           Transition_execute method reenter (Transition_view h2 t) ed m0
           = (Ok (true, refreshed dst ed), with_data d (moved_to dst m1),
              lg ++ (ACall <$> Transition_before (Transition_view h t)) ++ [ACall f]
              ++ (if decide (TransitionObj_before t = TransitionObj_after t)
                  then [ACall g] else [])
              ++ (ACall <$> State_on_exit src)
              ++ [ASetState (State_name dst); ASetAttr "state" (AStr (State_name dst));
                  AUpdate]
              ++ (ACall <$> State_on_enter dst)
              ++ (ACall <$> Transition_after (Transition_view h t))
              ++ (if decide (TransitionObj_after t = TransitionObj_before t)
                  then [ACall f] else [])
              ++ [ACall g])) /\
  (forall inherited kind f t (h : heap),
     kind ≠ "before" -> kind ≠ "after" -> kind ≠ "conditions" ->
     (kind ∈ ["source"; "dest"; "execute"; "add_callback"] ++ inherited ->
      Transition_add_callback inherited kind f t h = (Err (AttributeError "append"), h)) /\
     (kind ∉ ["source"; "dest"; "execute"; "add_callback"] ++ inherited ->
      Transition_add_callback inherited kind f t h = (Err (AttributeError kind), h))).
Proof.
  split.
  - intros inherited t f g h (Hb & Ha & Hc).
    set (h1 := list_append (TransitionObj_before t) f h).
    set (h2 := list_append (TransitionObj_after t) g h1).
    assert (Ha1 : live h1 (TransitionObj_after t)) by (by apply list_append_live).
    assert (Hcont : forall l,
      content h2 l
      = content h l
        ++ (if decide (l = TransitionObj_before t) then [f] else [])
        ++ (if decide (l = TransitionObj_after t) then [g] else [])).
    { intros l. unfold h2, h1. rewrite !list_append_content by done.
      by rewrite <- app_assoc. }
    assert (Eb : Transition_before (Transition_view h2 t)
                 = Transition_before (Transition_view h t) ++ [f]
                   ++ (if decide (TransitionObj_before t = TransitionObj_after t)
                       then [g] else [])).
    { simpl. rewrite Hcont. by rewrite decide_True. }
    assert (Ea : Transition_after (Transition_view h2 t)
                 = Transition_after (Transition_view h t)
                   ++ (if decide (TransitionObj_after t = TransitionObj_before t)
                       then [f] else []) ++ [g]).
    { simpl. rewrite Hcont. by rewrite (decide_True (P := _ = TransitionObj_after t)). }
    exists h1, h2. split; [apply Transition_add_callback_before|].
    split; [apply Transition_add_callback_after|]. split; [exact Hcont|].
    split; [intros l; unfold h2, h1; by rewrite !list_append_live|].
    split; [exact Eb|]. split; [exact Ea|].
    intros ed m0 m1 lg src dst Hg Hsrc Hdst Hall.
    destruct (Transition_execute_taken method reenter (Transition_view h2 t) ed
                m0 m1 lg src dst Hg Hsrc Hdst Hall) as (d & E).
    exists d. rewrite E. unfold protocol_log. rewrite Eb, Ea.
    rewrite !fmap_app. simpl.
    destruct (decide (TransitionObj_before t = TransitionObj_after t));
      destruct (decide (TransitionObj_after t = TransitionObj_before t));
      try congruence; simpl; by rewrite <- ?app_assoc.
  - intros inherited kind f t h H1 H2 H3.
    unfold Transition_add_callback, Transition_getattr.
    rewrite !bool_decide_eq_false_2 by done.
    split; intros Hk.
    + by rewrite bool_decide_eq_true_2.
    + by rewrite bool_decide_eq_false_2.
Qed.
End Registration.



(** ** The registries *)

Section Registry.
Context {W : Type}.
Implicit Types m : Machine W.















Lemma desc_state_name d : State_name (desc_state d) = ref_name d.
Proof. by destruct d. Qed.

Lemma register_states_run descs : forall m,
  exists m' l,
    register_states descs m = (Ok tt, m', l) /\
    Machine_events m' = Machine_events m /\
    Machine_current_state m' = Machine_current_state m /\
    Model_data (Machine_model m') = Model_data (Machine_model m) /\
    (forall k,
       Machine_states m' !! k
       = match last (filter (fun s => State_name s = k) (desc_state <$> descs)) with
         | Some s => Some s
         | None => Machine_states m !! k
         end) /\
    (forall d, d ∈ descs ->
       Model_attrs (Machine_model m') !! ("is_" +:+ ref_name d)
       = Some (AIsState (ref_name d))) /\
    (forall a, (forall d, d ∈ descs -> a ≠ "is_" +:+ ref_name d) ->
       Model_attrs (Machine_model m') !! a = Model_attrs (Machine_model m) !! a).
Proof.
  induction descs as [|d rest IH]; intros m.
  - exists m, []. repeat split; try done. intros d Hd. by apply not_elem_of_nil in Hd.
  - set (s := desc_state d).
    set (m1 := with_model
                 {| Model_attrs := <["is_" +:+ State_name s := AIsState (State_name s)]>
                                     (Model_attrs (Machine_model m));
                    Model_data := Model_data (Machine_model m) |}
                 (with_states (<[State_name s := s]> (Machine_states m)) m)).
    destruct (IH m1) as (m' & l & Hrun & He & Hc & Hd & Hs & Hin & Hout).
    exists m'. eexists. split; [|split; [done|split; [done|split; [done|split; [|split]]]]].
    + simpl. run_ok reflexivity. run_ok reflexivity. run_ok reflexivity.
      match goal with
      | |- context [register_states ?a ?b] =>
          change (register_states a b) with (register_states rest m1)
      end.
      rewrite Hrun. reflexivity.
    + intros k. rewrite Hs. rewrite fmap_cons. fold s.
      destruct (decide (State_name s = k)) as [Hk|Hk].
      * rewrite filter_cons_True by done. rewrite last_cons.
        destruct (last _); [done|]. subst m1. simpl. rewrite <- Hk.
        apply lookup_insert_eq.
      * rewrite filter_cons_False by done.
        destruct (last _); [done|]. subst m1. simpl. by rewrite lookup_insert_ne.
    + intros d' [->|Hd']%elem_of_cons; [|by apply Hin].
      destruct (decide (ref_name d ∈ ref_name <$> rest)) as [Hr|Hr].
      * apply list_elem_of_fmap in Hr as (d' & Hname & Hd'). rewrite Hname. by apply Hin.
      * rewrite Hout.
        -- subst m1 s. simpl. rewrite desc_state_name. apply lookup_insert_eq.
        -- intros d' Hd' E. apply is_name_inj in E. apply Hr.
           apply list_elem_of_fmap. by exists d'.
    + intros a Ha. rewrite Hout.
      * subst m1 s. simpl. rewrite desc_state_name.
        rewrite lookup_insert_ne; [done|]. intros E. by apply (Ha d); [left|].
      * intros d' Hd'. apply Ha. by right.
Qed.



(** The three steps of the constructor, whatever their outcome. *)
Lemma Machine_init_steps (model : Model W) states initial transitions send r m l :
  Machine_init model states initial transitions send = (r, m, l) ->
  exists m1 l1 r2 m2 l2,
    register_states (state_descs states)
      {| Machine_model := model; Machine_states := ∅; Machine_events := ∅;
         Machine_current_state := None; Machine_send_event := send |}
    = (Ok tt, m1, l1) /\
    Machine_set_state initial m1 = (r2, m2, l2) /\
    match r2 with
    | Err e => r = Err e /\ m = m2
    | Ok _ =>
        exists l3, add_transitions (default [] transitions) m2 = (r, m, l3)
    end.
Proof.
  unfold Machine_init.
  set (m0 := {| Machine_model := model; Machine_states := ∅; Machine_events := ∅;
                Machine_current_state := None; Machine_send_event := send |}).
  intros H.
  destruct (register_states_run (state_descs states) m0) as (m1 & l1 & Hrun & _).
  assert (Hfirst :
    (match states with
     | PNone => ret tt
     | _ => register_states (elems (listify states))
     end) m0 = (Ok tt, m1, l1)).
  { destruct states; exact Hrun. }
  erewrite bind_ok in H by exact Hfirst. cbn beta iota in H.
  unfold bind at 1 in H.
  destruct (Machine_set_state initial m1) as [[r2 m2] l2] eqn:E2.
  exists m1, l1, r2, m2, l2. split; [exact Hrun|]. split; [done|].
  destruct r2 as [[]|e].
  - destruct transitions as [ts|]; simpl.
    + destruct (add_transitions ts m2) as [[r3 m3] l3] eqn:E3.
      injection H as <- <- <-. by exists l3.
    + injection H as <- <- <-. by exists [].
  - by injection H as <- <- <-.
Qed.




End Registry.

(** ** Reading attributes of the machine *)

Section Attributes.
Context {W : Type}.
Implicit Types m : Machine W.

Lemma split_on_enter s :
  split underscore ("on_enter_" +:+ s) = "on" :: "enter" :: split underscore s.
Proof. reflexivity. Qed.

Lemma split_on_exit s :
  split underscore ("on_exit_" +:+ s) = "on" :: "exit" :: split underscore s.
Proof. reflexivity. Qed.

Lemma Machine_getattr_on_enter m S :
  Machine_getattr ("on_enter_" +:+ S) m
  = match Machine_states m !! S with
    | Some st => (Ok (BStateAddCallback st "enter"), m, [])
    | None => (Err (ValueError ("State '" +:+ S +:+ "' is not a registered state.")), m, [])
    end.
Proof.
  unfold Machine_getattr. rewrite split_on_enter.
  change (bool_decide (hd EmptyString ("on" :: "enter" :: split underscore S) = "before")
          || bool_decide (hd EmptyString ("on" :: "enter" :: split underscore S) = "after"))
    with false.
  change (startswith ("on_enter_" +:+ S) "on_enter") with true.
  cbn [orb skipn nth]. cbv iota. rewrite drop_0, join_split.
  destruct (Machine_states m !! S) as [st|] eqn:E.
  - by run_ok (by apply get_state_registered).
  - by run_err (by apply get_state_unregistered).
Qed.

Lemma Machine_getattr_on_exit m S :
  Machine_getattr ("on_exit_" +:+ S) m
  = match Machine_states m !! S with
    | Some st => (Ok (BStateAddCallback st "exit"), m, [])
    | None => (Err (ValueError ("State '" +:+ S +:+ "' is not a registered state.")), m, [])
    end.
Proof.
  unfold Machine_getattr. rewrite split_on_exit.
  change (bool_decide (hd EmptyString ("on" :: "exit" :: split underscore S) = "before")
          || bool_decide (hd EmptyString ("on" :: "exit" :: split underscore S) = "after"))
    with false.
  change (startswith ("on_exit_" +:+ S) "on_enter") with false.
  change (startswith ("on_exit_" +:+ S) "on_exit") with true.
  cbn [orb skipn nth]. cbv iota. rewrite drop_0, join_split.
  destruct (Machine_states m !! S) as [st|] eqn:E.
  - by run_ok (by apply get_state_registered).
  - by run_err (by apply get_state_unregistered).
Qed.

(** X11.  Reading [on_enter_<name>] or [on_exit_<name>] on the machine,
    for the name of a registered state (underscores in the name
    included), returns the [add_callback] of that state with the kind
    [enter] or [exit], so that calling the result with a callback name
    appends it to the state's enter or exit callbacks, whatever list
    objects the state holds.  For a name that is not registered the read
    raises ValueError.  Neither prints nor changes anything. *)
Theorem Machine_getattr_state_callbacks m S f :
  (forall st, Machine_states m !! S = Some st ->
     Machine_getattr ("on_enter_" +:+ S) m = (Ok (BStateAddCallback st "enter"), m, []) /\
     Machine_getattr ("on_exit_" +:+ S) m = (Ok (BStateAddCallback st "exit"), m, []) /\
     (forall (h : heap) so, State_live h so -> State_view h so = st ->
        exists h', State_add_callback "enter" f so h = (Ok tt, h') /\
                   State_on_enter (State_view h' so) = State_on_enter st ++ [f]) /\
     (forall (h : heap) so, State_live h so -> State_view h so = st ->
        exists h', State_add_callback "exit" f so h = (Ok tt, h') /\
                   State_on_exit (State_view h' so) = State_on_exit st ++ [f])) /\
  (Machine_states m !! S = None ->
     Machine_getattr ("on_enter_" +:+ S) m
     = (Err (ValueError ("State '" +:+ S +:+ "' is not a registered state.")), m, []) /\
     Machine_getattr ("on_exit_" +:+ S) m
     = (Err (ValueError ("State '" +:+ S +:+ "' is not a registered state.")), m, [])).
Proof.
  rewrite Machine_getattr_on_enter, Machine_getattr_on_exit. split.
  - intros st ->. split; [done|]. split; [done|]. split.
    + intros h so [He Hx] <-. eexists. split; [apply State_add_callback_enter|].
      simpl. rewrite list_append_content by done. by rewrite decide_True.
    + intros h so [He Hx] <-. eexists. split; [apply State_add_callback_exit|].
      simpl. rewrite list_append_content by done. by rewrite decide_True.
  - by intros ->.
Qed.

(** X12.  Reading an attribute through [__getattr__] never changes the
    machine or the model, whatever the name and whatever the outcome,
    prints at most one line, and never yields a registration function for
    an event. *)
Theorem Machine_getattr_read_only m name (r : result bound) m' l :
  Machine_getattr name m = (r, m', l) ->
  m' = m /\
  (l = [] \/ exists line, l = [APrint line]) /\
  forall event member arg, r ≠ Ok (BEventPartial event member arg).
Proof.
  unfold Machine_getattr.
  destruct (bool_decide _ || bool_decide _).
  - unfold bind, log, get, raise. simpl.
    destruct (Machine_events m !! _); intros [= <- <- <-];
      (split; [done|split; [right; by eexists|done]]).
  - destruct (startswith _ _ || startswith _ _).
    + unfold bind, Machine_get_state, bind, get, raise, ret. simpl.
      destruct (Machine_states m !! _); intros [= <- <- <-];
        (split; [done|split; [by left|done]]).
    + intros [= <- <- <-]. split; [done|split; [by left|done]].
Qed.
End Attributes.

Lemma Machine_getattr_state_callbacks_witness :
  Machine_getattr "on_enter_liquid" Demo.at_solid
  = (Ok (BStateAddCallback Demo.liquid "enter"), Demo.at_solid, []) /\
  Machine_getattr "on_exit_plasma" Demo.at_solid
  = (Err (ValueError "State 'plasma' is not a registered state."), Demo.at_solid, []).
Proof.
  split.
  - destruct (Machine_getattr_state_callbacks Demo.at_solid "liquid" "f") as (H & _).
    destruct (H Demo.liquid) as (E & _); [vm_compute; reflexivity|exact E].
  - destruct (Machine_getattr_state_callbacks Demo.at_solid "plasma" "f") as (_ & H).
    destruct H as (_ & E); [vm_compute; reflexivity|exact E].
Defined.

Lemma Machine_getattr_read_only_witness :
  snd (fst (Machine_getattr "after_melt" Demo.at_solid)) = Demo.at_solid.
Proof.
  destruct (Machine_getattr "after_melt" Demo.at_solid) as [[r m'] l] eqn:E.
  by destruct (Machine_getattr_read_only Demo.at_solid "after_melt" r m' l E) as (-> & _).
Defined.


(** ** Running triggers *)

Section Dynamics.
Context {W A : Type}.
Variable method : string -> Machine W -> result bool * Machine W.
Variable reenter : Event -> M W bool.
Implicit Types m : Machine W.

Lemma set_state_unregistered name m :
  Machine_states m !! name = None ->
  Machine_set_state (Some (SName name)) m
  = (Err (ValueError ("State '" +:+ name +:+ "' is not a registered state.")), m, []).
Proof.
  intros H. unfold Machine_set_state.
  erewrite bind_err; [done|].
  erewrite bind_err; [done|]. by apply get_state_unregistered.
Qed.

(** X13.  [set_state] on its edges.  An unregistered name raises
    ValueError and changes nothing.  A [State] instance becomes the
    current state and is mirrored on the model whether it is registered
    or not.  None raises AttributeError after the current state has been
    cleared, the model's [state] attribute staying as it was; from then
    on [is_state] and every trigger raise AttributeError. *)
Theorem Machine_set_state_edges m :
  (forall name, Machine_states m !! name = None ->
     Machine_set_state (Some (SName name)) m
     = (Err (ValueError ("State '" +:+ name +:+ "' is not a registered state.")), m, [])) /\
  (forall st,
     Machine_set_state (Some (SObj st)) m
     = (Ok tt, moved_to st m,
        [ASetState (State_name st); ASetAttr "state" (AStr (State_name st))])) /\
  Machine_set_state None m
  = (Err (AttributeError "name"), with_current_state None m, []) /\
  (forall T, Machine_is_state T (with_current_state None m)
             = (Err (AttributeError "name"), with_current_state None m, [])) /\
  (forall e (args : list A),
     Event_trigger method reenter e args (with_current_state None m)
     = (Err (AttributeError "name"), with_current_state None m, [])).
Proof.
  split; [intros name; apply set_state_unregistered|]. repeat split.
Qed.

(** X14.  Guards may name the state predicates.  In a machine where
    every registered name has its predicate on the model, guards
    [is_<T>] for registered names [T] pass exactly when the current state
    has each of these names, and evaluating them leaves the store as it
    is. *)
Theorem predicate_guards m cur Ts :
  predicates_bound m ->
  Machine_current_state m = Some cur ->
  Forall (fun T => T ∈ dom (Machine_states m)) Ts ->
  exists l,
    check_conditions method reenter ((fun T => "is_" +:+ T) <$> Ts) m
    = (Ok (bool_decide (Forall (fun T => State_name cur = T) Ts)), m, l).
Proof.
  intros Hb Hcur. induction 1 as [|T Ts HT HTs (l & IH)].
  - exists []. rewrite bool_decide_eq_true_2 by constructor. reflexivity.
  - rewrite fmap_cons. simpl check_conditions.
    erewrite bind_ok by (apply (call_attr_predicate method reenter m T cur); auto).
    destruct (decide (State_name cur = T)) as [E|E].
    + rewrite (bool_decide_eq_true_2 _ E). rewrite IH.
      eexists. f_equal. f_equal. f_equal.
      apply bool_decide_ext. split; [by constructor|by inversion 1].
    + rewrite (bool_decide_eq_false_2 _ E). unfold ret.
      eexists. f_equal. f_equal. f_equal.
      symmetry. apply bool_decide_eq_false_2. by inversion 1.
Qed.

Lemma check_conditions_raise pre c post x : forall m0 m1 l1 m2 l2,
  check_conditions method reenter pre m0 = (Ok true, m1, l1) ->
  call_attr method reenter c m1 = (Err x, m2, l2) ->
  check_conditions method reenter (pre ++ c :: post) m0 = (Err x, m2, l1 ++ l2).
Proof.
  induction pre as [|p pre IH]; intros m0 m1 l1 m2 l2 Hpre Hc.
  - injection Hpre as <- <-. simpl. by run_err (exact Hc).
  - simpl in *. unfold bind in Hpre |- *.
    destruct (call_attr method reenter p m0) as [[[[] |e] m'] l']; [| |done].
    + destruct (check_conditions method reenter pre m') as [[r m1'] l1'] eqn:E.
      injection Hpre as -> -> <-.
      erewrite IH by eassumption. by rewrite app_assoc.
    + unfold ret in Hpre. done.
Qed.

Lemma Transition_execute_guard_raises t (ed : EventData A) m x m' l :
  check_conditions method reenter (Transition_conditions t) m = (Err x, m', l) ->
  Transition_execute method reenter t ed m = (Err x, m', l).
Proof. intros H. unfold Transition_execute. by run_err (exact H). Qed.

(** X15.  A guard that raises ends the trigger with its exception: the
    guards after it, the callbacks of its transition and the candidates
    after that transition are not run, and the store is the one the guard
    calls left; when the guards are members of the model that change its
    data only, the current state and the model's attributes are as
    before. *)
Theorem guard_exception_ends_trigger e (args : list A) m cur pre t rest
    gpre g gpost x m1 l1 m2 l2 m3 l3 :
  Machine_current_state m = Some cur ->
  Event_transitions e !! State_name cur = Some (pre ++ t :: rest) ->
  declined method reenter pre m m1 l1 ->
  Transition_conditions t = gpre ++ g :: gpost ->
  check_conditions method reenter gpre m1 = (Ok true, m2, l2) ->
  call_attr method reenter g m2 = (Err x, m3, l3) ->
  Event_trigger method reenter e args m = (Err x, m3, ANewEventData :: l1 ++ l2 ++ l3) /\
  ((forall t', t' ∈ pre -> Forall (quiet method m) (Transition_conditions t')) ->
   Forall (quiet method m) (gpre ++ [g]) ->
   Machine_current_state m3 = Some cur /\
   Model_attrs (Machine_model m3) = Model_attrs (Machine_model m) /\
   exists d, m3 = with_data d m).
Proof.
  intros Hcur Hts Hd Hg Hpre Hc. split.
  - rewrite (Event_trigger_filed _ _ _ _ _ _ _ Hcur Hts).
    rewrite (try_transitions_declined _ _ _ _ _ _ _ _ Hd). simpl.
    run_err (apply Transition_execute_guard_raises; rewrite Hg;
             by eapply check_conditions_raise).
    reflexivity.
  - intros Hq1 Hq2.
    destruct (declined_quiet _ _ _ _ _ _ Hd Hq1) as ((d1 & ->) & _).
    apply Forall_app in Hq2 as [Hqa Hqb].
    assert (Hqa' : Forall (quiet method (with_data d1 m)) gpre).
    { eapply Forall_impl; [exact Hqa|]. intros. by apply quiet_with_data. }
    destruct (check_conditions_quiet method reenter gpre (with_data d1 m)
                (Ok true) m2 l2 Hqa' Hpre) as ((d2 & ->) & _).
    inversion Hqb as [|?? Hqg _]; subst.
    assert (Hqg' : quiet method (with_data d2 (with_data d1 m)) g).
    { by apply quiet_with_data, quiet_with_data. }
    destruct (call_attr_quiet method reenter g (with_data d2 (with_data d1 m))
                (Err x) m3 l3 Hqg' Hc) as (_ & d3 & ->).
    repeat split; [done|by exists d3].
Qed.

Lemma states_plain_lists m k st :
  states_plain method m -> Machine_states m !! k = Some st ->
  Forall (plain method m) (State_on_enter st) /\
  Forall (plain method m) (State_on_exit st).
Proof. intros Hsp Hk. by apply Forall_app, (Hsp k). Qed.

Lemma Transition_execute_outcome t (ed : EventData A) m d0 r m' l :
  states_plain method m -> transition_plain method m t ->
  Transition_execute method reenter t ed (with_data d0 m) = (r, m', l) ->
  (exists dst d,
     Machine_states m !! Transition_dest t = Some dst /\
     r = Ok (true, refreshed dst ed) /\ m' = with_data d (moved_to dst m)) \/
  (exists d, m' = with_data d m /\ (r = Ok (false, ed) \/ exists x, r = Err x)).
Proof.
  intros Hsp [Hq Hp] H. apply Forall_app in Hp as [Hb Ha].
  destruct (check_conditions method reenter (Transition_conditions t) (with_data d0 m))
    as [[rg mg] lg] eqn:Eg.
  assert (Hq' : Forall (quiet method (with_data d0 m)) (Transition_conditions t)).
  { eapply Forall_impl; [exact Hq|]. intros. by apply quiet_with_data. }
  destruct (check_conditions_quiet method reenter _ _ _ _ _ Hq' Eg) as ((d1 & ->) & _).
  change (with_data d1 (with_data d0 m)) with (with_data d1 m) in Eg.
  assert (Hb1 : Forall (plain method (with_data d1 m)) (Transition_before t)).
  { eapply Forall_impl; [exact Hb|]. intros. by apply plain_with_data. }
  destruct rg as [[]|x].
  - destruct (Machine_states m !! Transition_source t) as [src|] eqn:Es.
    + destruct (states_plain_lists m _ src Hsp Es) as [_ Hx].
      destruct (Machine_states m !! Transition_dest t) as [dst|] eqn:Ed.
      * destruct (states_plain_lists m _ dst Hsp Ed) as [He _].
        destruct (Transition_execute_taken method reenter t ed (with_data d0 m)
                    (with_data d1 m) lg src dst Eg Es Ed) as (d & E).
        { eapply Forall_impl; [|intros; by apply plain_with_data].
          repeat (apply Forall_app; split); done. }
        rewrite E in H. injection H as <- <- <-. left. by exists dst, d.
      * destruct (call_each_plain method reenter _ _ Hb1) as (d2 & E2).
        destruct (call_each_plain method reenter (State_on_exit src)
                    (with_data d2 m)) as (d3 & E3).
        { eapply Forall_impl; [exact Hx|]. intros. by apply plain_with_data. }
        unfold Transition_execute in H.
        erewrite bind_ok in H by exact Eg. cbn beta iota delta [negb] in H.
        erewrite bind_ok in H by exact E2. cbn beta iota in H.
        erewrite bind_ok in H by (apply get_state_registered; exact Es).
        cbn beta iota in H. unfold State_exit in H.
        erewrite bind_ok in H by exact E3. cbn beta iota in H.
        erewrite bind_err in H by (apply set_state_unregistered; exact Ed).
        injection H as <- <- <-. right. exists d3. split; [done|]. right. by eexists.
    + destruct (call_each_plain method reenter _ _ Hb1) as (d2 & E2).
      unfold Transition_execute in H.
      erewrite bind_ok in H by exact Eg. cbn beta iota delta [negb] in H.
      erewrite bind_ok in H by exact E2. cbn beta iota in H.
      erewrite bind_err in H by (apply get_state_unregistered; exact Es).
      injection H as <- <- <-. right. exists d2. split; [done|]. right. by eexists.
  - rewrite (Transition_execute_declined method reenter t ed _ _ _ Eg) in H.
    injection H as <- <- <-. right. exists d1. split; [done|by left].
  - rewrite (Transition_execute_guard_raises t ed _ _ _ _ Eg) in H.
    injection H as <- <- <-. right. exists d1. split; [done|]. right. by eexists.
Qed.

Lemma try_transitions_outcome ts : forall (ed : EventData A) m d0 r m' l,
  states_plain method m -> Forall (transition_plain method m) ts ->
  try_transitions method reenter ts ed (with_data d0 m) = (r, m', l) ->
  (r = Ok true /\
   exists t dst d, t ∈ ts /\ Machine_states m !! Transition_dest t = Some dst /\
                   m' = with_data d (moved_to dst m)) \/
  (r ≠ Ok true /\ exists d, m' = with_data d m).
Proof.
  induction ts as [|t ts IH]; intros ed m d0 r m' l Hsp Hall H.
  - injection H as <- <- <-. right. split; [done|]. by exists d0.
  - inversion Hall as [|?? Ht Hts]; subst. simpl in H. unfold bind in H.
    destruct (Transition_execute method reenter t ed (with_data d0 m))
      as [[rt mt] lt] eqn:Et.
    destruct (Transition_execute_outcome t ed m d0 rt mt lt Hsp Ht Et)
      as [(dst & d & Hdst & -> & ->)|(d & -> & [->|[x ->]])].
    + simpl in H. injection H as <- <- <-. left. split; [done|].
      exists t, dst, d. split; [by left|done].
    + simpl in H.
      destruct (try_transitions method reenter ts ed (with_data d m))
        as [[r2 m2] l2] eqn:E2.
      injection H as <- <- <-.
      destruct (IH ed m d r2 m2 l2 Hsp Hts E2)
        as [(-> & t' & dst & d' & Ht' & Hdst & ->)|(Hne & d' & ->)].
      * left. split; [done|]. exists t', dst, d'. split; [by right|done].
      * right. split; [done|]. by exists d'.
    + injection H as <- <- <-. right. split; [done|]. by exists d.
Qed.


(** X17.  Consistency is kept by triggers.  In a consistent machine
    (states filed under their names, every registered name with its
    predicate on the model, the current state registered and mirrored)
    whose callbacks are plain, every trigger, whatever it returns or
    raises, leaves a consistent machine; an invalid trigger included. *)
Theorem Event_trigger_keeps_consistent e (args : list A) m r m' l :
  consistent m ->
  states_plain method m ->
  (forall k ts, Event_transitions e !! k = Some ts ->
     Forall (transition_plain method m) ts) ->
  Event_trigger method reenter e args m = (r, m', l) ->
  consistent m'.
Proof.
  intros (Hk & Hb & cur & Hcur & Hreg & Hst) Hsp Hall H.
  assert (Hdata : forall d, consistent (with_data d m)).
  { intros d. split; [done|]. split; [done|]. by exists cur. }
  destruct (Event_transitions e !! State_name cur) as [ts|] eqn:Ets.
  - rewrite (Event_trigger_filed _ _ _ _ _ _ _ Hcur Ets) in H.
    rewrite <- (with_data_same m) in H at 1.
    destruct (try_transitions _ _ _ _ _) as [[r2 m2] l2] eqn:E2.
    injection H as <- <- <-.
    destruct (try_transitions_outcome ts _ m _ r2 m2 l2 Hsp (Hall _ _ Ets) E2)
      as [(_ & t & dst & d & _ & Hdst & ->)|(_ & d & ->)]; [|done].
    split; [done|]. split.
    + by apply predicates_bound_with_data, predicates_bound_moved_to.
    + exists dst. split; [done|]. split.
      * simpl. by rewrite (Hk _ _ Hdst).
      * apply lookup_insert_eq.
  - unfold Event_trigger in H.
    erewrite bind_ok in H by reflexivity. cbn beta iota in H.
    rewrite Hcur, Ets in H.
    injection H as <- <- <-. split; [done|]. split; [done|]. by exists cur.
Qed.
End Dynamics.


(** ** What the constructor establishes *)

Section Construction.
Context {W A : Type}.
Variable method : string -> Machine W -> result bool * Machine W.
Variable reenter : Event -> M W bool.
Implicit Types m : Machine W.




(** X19.  For a machine bound to a model object of its own (the
    constructor was given a [model]): a construction that succeeds, with
    an initial state given by name and no trigger named [state] or
    [is_<T>] for a registered [T], leaves a consistent machine: states
    filed under their names, every registered name with its predicate on
    the model, the current state the one registered under the initial
    name and mirrored on the model. *)
Theorem Machine_init_consistent (model : Model W) states n transitions send m l :
  Machine_init model states (Some (SName n)) transitions send = (Ok tt, m, l) ->
  (forall td, td ∈ default [] transitions ->
     td_trigger td ≠ "state" /\
     forall T, T ∈ dom (Machine_states m) -> td_trigger td ≠ "is_" +:+ T) ->
  consistent m /\
  exists cur, Machine_current_state m = Some cur /\ State_name cur = n.
Proof.
  intros H Htrig.
  pose proof H as Hsteps.
  apply Machine_init_steps in Hsteps as (m1 & l1 & r2 & m2 & l2 & H1 & H2 & H3).
  destruct r2 as [[]|x]; [|by destruct H3 as [[=] _]].
  destruct H3 as (l3 & H3).
  apply set_state_ok_inv in H2 as (cur & -> & Hcur).
  apply add_transitions_frame in H3 as (Hs & Hc & Ha).
  assert (Hreg : n ∈ dom (Machine_states m)).
  { apply elem_of_dom. rewrite Hs. by exists cur. }
  destruct (construction_mirrors method reenter model states (SName n) transitions
              send m l H Hreg Htrig) as ((Hst & _) & Hb & Hk).
  assert (Hname : State_name cur = n).
  { apply Hk. by rewrite Hs. }
  split; [|by exists cur].
  split; [done|]. split; [done|]. exists cur.
  split; [done|]. split.
  - rewrite Hs, Hname. done.
  - by rewrite Hname.
Qed.
End Construction.


(** ** Triggers called from callbacks *)

Section Reentry.
Context {W A : Type}.
Variable method : string -> Machine W -> result bool * Machine W.
Variable reenter : Event -> M W bool.
Implicit Types m : Machine W.

(** X20.  A transition may name a trigger bound on the model as its
    after callback.  The nested [trigger] then starts in the store the
    transition has reached: the destination is current and mirrored and
    the enter callbacks have run.  The transition returns true whatever
    the nested trigger returns, and ends with the nested trigger's
    exception if it raises. *)
Theorem after_callback_trigger t (ed : EventData A) m0 m1 lg src dst ev e' :
  check_conditions method reenter (Transition_conditions t) m0 = (Ok true, m1, lg) ->
  Machine_states m1 !! Transition_source t = Some src ->
  Machine_states m1 !! Transition_dest t = Some dst ->
  Forall (plain method m1)
    (Transition_before t ++ State_on_exit src ++ State_on_enter dst) ->
  Transition_after t = [ev] ->
  ev ≠ "state" ->
  Model_attrs (Machine_model m1) !! ev = Some (ATrigger ev) ->
  Machine_events m1 !! ev = Some e' ->
  exists d,
    Transition_execute method reenter t ed m0
    = match reenter e' (with_data d (moved_to dst m1)) with
      | (r, m2, l2) =>
          (match r with
           | Ok _ => Ok (true, refreshed dst ed)
           | Err x => Err x
           end,
           m2,
           lg ++ (ACall <$> Transition_before t) ++ (ACall <$> State_on_exit src) ++
           [ASetState (State_name dst); ASetAttr "state" (AStr (State_name dst)); AUpdate] ++
           (ACall <$> State_on_enter dst) ++ ACall ev :: l2)
      end.
Proof.
  intros Hg Hsrc Hdst Hall Hafter Hne Hattr Hev.
  apply Forall_app in Hall as [Hb Hall].
  apply Forall_app in Hall as [Hx He].
  destruct (call_each_plain method reenter _ _ Hb) as (d1 & E1).
  destruct (call_each_plain method reenter (State_on_exit src) (with_data d1 m1))
    as (d2 & E2).
  { eapply Forall_impl; [exact Hx|]. intros. by apply plain_with_data. }
  destruct (call_each_plain method reenter (State_on_enter dst)
              (moved_to dst (with_data d2 m1))) as (d3 & E3).
  { eapply Forall_impl; [exact He|]. intros.
    by apply plain_moved_to, plain_with_data. }
  exists d3. unfold Transition_execute.
  run_ok (exact Hg). cbn beta iota delta [negb].
  run_ok (exact E1).
  run_ok (apply get_state_registered; exact Hsrc).
  unfold State_exit. run_ok (exact E2).
  run_ok (apply set_state_registered; exact Hdst).
  unfold EventData_update.
  run_ok (erewrite bind_ok by reflexivity; reflexivity).
  run_ok (apply get_state_registered; exact Hdst).
  unfold State_enter. run_ok (exact E3).
  rewrite Hafter. simpl call_each.
  assert (Hcall : call_attr method reenter ev (with_data d3 (moved_to dst m1))
                  = match reenter e' (with_data d3 (moved_to dst m1)) with
                    | (r, m2, l2) => (r, m2, ACall ev :: l2)
                    end).
  { unfold call_attr. run_ok reflexivity. run_ok reflexivity.
    simpl. rewrite lookup_insert_ne by done. rewrite Hattr, Hev.
    by destruct (reenter e' _) as [[??]?]. }
  change (with_data d3 (moved_to dst (with_data d2 m1)))
    with (with_data d3 (moved_to dst m1)).
  unfold bind at 1 2. rewrite Hcall.
  destruct (reenter e' (with_data d3 (moved_to dst m1))) as [[[b|x] m2] l2]; simpl.
  - by rewrite !app_nil_r.
  - done.
Qed.
End Reentry.

(** ** The further properties on the concrete machines *)

Ltac demo_transition_plain := split; [demo_all demo_quiet|demo_all demo_plain].

Ltac demo_map_all tac :=
  match goal with
  | |- Forall ?P ?l => let l' := eval vm_compute in l in change (Forall P l')
  end;
  repeat (apply Forall_cons; split; [simpl; tac|]); constructor.

Lemma fork_states_plain : states_plain Demo.method Demo.fork.
Proof.
  intros k st Hk.
  refine (proj2 (map_Forall_to_list
                   (fun _ st => Forall (plain Demo.method Demo.fork)
                                  (State_on_enter st ++ State_on_exit st))
                   (Machine_states Demo.fork)) _ k st Hk).
  demo_map_all ltac:(demo_all demo_plain).
Qed.

Lemma fork_consistent : consistent Demo.fork.
Proof.
  destruct (construction_mirrors Demo.method (Demo.trigger_at 8) Demo.model
              (PList [SName "A"; SName "B"; SName "C"]) (SName "A")
              (Some [Demo.descriptor "go" "A" "B" (POne "is_cold") (POne "x1") (POne "y1");
                     Demo.descriptor "go" "A" "C" (POne "is_hot") (POne "x2") (POne "y2")])
              false Demo.fork
              (snd (Machine_init Demo.model (PList [SName "A"; SName "B"; SName "C"])
                      (Some (SName "A"))
                      (Some [Demo.descriptor "go" "A" "B" (POne "is_cold") (POne "x1")
                               (POne "y1");
                             Demo.descriptor "go" "A" "C" (POne "is_hot") (POne "x2")
                               (POne "y2")])
                      false)))
    as (_ & Hb & Hk).
  - vm_compute; reflexivity.
  - apply elem_of_dom. eexists. vm_compute. reflexivity.
  - intros td Htd. simpl in Htd.
    apply elem_of_cons in Htd as [->|Htd];
      [|apply elem_of_cons in Htd as [->|Htd]; [|by apply not_elem_of_nil in Htd]].
    + split; [done|]. intros T _. simpl. discriminate.
    + split; [done|]. intros T _. simpl. discriminate.
  - split; [done|]. split; [done|].
    exists (State_init "A" PNone PNone). repeat split; vm_compute; reflexivity.
Qed.

Lemma State_enter_exit_in_order_witness :
  (exists d, State_enter Demo.method (Demo.trigger_at 8) Demo.liquid Demo.at_solid
             = (Ok tt, with_data d Demo.at_solid, [ACall "enter_liquid"; ACall "wet"])) /\
  (exists d, State_enter Demo.method (Demo.trigger_at 8) Demo.hot Demo.kettle
             = (Err (UserError "boom"), with_data d Demo.kettle,
                [ACall "hiss"; ACall "boom"])).
Proof.
  split.
  - destruct (State_enter_exit_in_order Demo.method (Demo.trigger_at 8)
                Demo.liquid Demo.at_solid) as (H & _).
    apply H. demo_all demo_plain.
  - destruct (State_enter_exit_in_order Demo.method (Demo.trigger_at 8)
                Demo.hot Demo.kettle) as (_ & _ & H & _).
    apply (H ["hiss"] "boom" ["late"] (UserError "boom")).
    + reflexivity.
    + demo_all demo_plain.
    + demo_failing.
Defined.

Lemma State_add_callback_appends_witness :
  (exists h',
     State_add_callback "enter" "f" (fst Shared.twin) (snd Shared.twin) = (Ok tt, h') /\
     State_view h' (fst Shared.twin)
     = {| State_name := "s"; State_on_enter := ["a"; "b"; "f"];
          State_on_exit := ["a"; "b"; "f"] |} /\
     content h' 0 = ["a"; "b"; "f"]) /\
  (exists h' d,
     State_add_callback "enter" "f" (fst Shared.apart) (snd Shared.apart) = (Ok tt, h') /\
     State_view h' (fst Shared.apart)
     = {| State_name := "s"; State_on_enter := ["a"; "f"]; State_on_exit := ["a"; "b"] |} /\
     State_enter Demo.method (Demo.trigger_at 8) (State_view h' (fst Shared.apart))
       Demo.at_solid
     = (Ok tt, with_data d Demo.at_solid, [ACall "a"; ACall "f"])).
Proof.
  destruct (State_add_callback_appends Demo.method (Demo.trigger_at 8))
    as (_ & Henter & _).
  split.
  - destruct (Henter (fst Shared.twin) "f" (snd Shared.twin))
      as (h' & E & Hh & Hn & He & Hx & _).
    { split; by eexists. }
    exists h'. split; [exact E|]. split.
    + destruct (State_view h' (fst Shared.twin)) as [n e x].
      simpl in Hn, He, Hx. by rewrite Hn, He, Hx.
    + unfold content. by rewrite (Hh 0).
  - destruct (Henter (fst Shared.apart) "f" (snd Shared.apart))
      as (h' & E & _ & Hn & He & Hx & Hrun).
    { split; by eexists. }
    destruct (Hrun Demo.at_solid) as (d & Ed); [demo_all demo_plain|].
    exists h', d. split; [exact E|]. split; [|exact Ed].
    destruct (State_view h' (fst Shared.apart)) as [n e x].
    simpl in Hn, He, Hx. by rewrite Hn, He, Hx.
Defined.

Lemma Transition_add_callback_guard_witness :
  exists h',
    Transition_add_callback object_members "conditions" "is_cold"
      (fst Shared.guarded_by) (snd Shared.guarded_by) = (Ok tt, h') /\
    Transition_conditions (Transition_view h' (fst Shared.guarded_by))
    = ["is_hot"; "is_cold"] /\
    Transition_before (Transition_view h' (fst Shared.guarded_by))
    = ["is_hot"; "is_cold"] /\
    Transition_after (Transition_view h' (fst Shared.guarded_by)) = ["a"] /\
    Transition_execute Demo.method (Demo.trigger_at 8)
      (Transition_view h' (fst Shared.guarded_by))
      (Demo.context Demo.solid "melt") Demo.at_solid
    = (Ok (false, Demo.context Demo.solid "melt"),
       with_data ["is_hot"; "is_cold"] Demo.at_solid, [ACall "is_hot"; ACall "is_cold"]).
Proof.
  destruct (Transition_add_callback_guard (A := unit) Demo.method (Demo.trigger_at 8))
    as (_ & H).
  destruct (H object_members (fst Shared.guarded_by) "is_cold" (snd Shared.guarded_by))
    as (h' & E & _ & _ & _ & Hc & Hb & Ha & Hrun).
  { repeat split; by eexists. }
  exists h'. split; [exact E|]. split; [exact Hc|]. split; [exact Hb|].
  split; [exact Ha|].
  apply (Hrun (Demo.context Demo.solid "melt") Demo.at_solid
           (with_data ["is_hot"] Demo.at_solid) [ACall "is_hot"]
           (with_data ["is_hot"; "is_cold"] Demo.at_solid) [ACall "is_cold"]).
  - vm_compute; reflexivity.
  - vm_compute; reflexivity.
Defined.

Lemma Transition_add_callback_order_witness :
  exists h1 h2 d,
    Transition_add_callback object_members "before" "f"
      (fst Shared.shared) (snd Shared.shared) = (Ok tt, h1) /\
    Transition_add_callback object_members "after" "g" (fst Shared.shared) h1
    = (Ok tt, h2) /\
    Transition_before (Transition_view h2 (fst Shared.shared)) = ["a"; "b"; "f"; "g"] /\
    Transition_after (Transition_view h2 (fst Shared.shared)) = ["a"; "b"; "f"; "g"] /\
    Transition_execute Demo.method (Demo.trigger_at 8)
      (Transition_view h2 (fst Shared.shared))
      (Demo.context Demo.solid "melt") Demo.at_solid
    = (Ok (true, refreshed Demo.liquid (Demo.context Demo.solid "melt")),
       with_data d (moved_to Demo.liquid Demo.at_solid),
       [ACall "a"; ACall "b"; ACall "f"; ACall "g"; ACall "leave_solid";
        ASetState "liquid"; ASetAttr "state" (AStr "liquid"); AUpdate;
        ACall "enter_liquid"; ACall "wet";
        ACall "a"; ACall "b"; ACall "f"; ACall "g"]).
Proof.
  destruct (Transition_add_callback_order (A := unit) Demo.method (Demo.trigger_at 8))
    as (H & _).
  destruct (H object_members (fst Shared.shared) "f" "g" (snd Shared.shared))
    as (h1 & h2 & E1 & E2 & Hcont & _ & Hb & Ha & Hrun).
  { repeat split; by eexists. }
  assert (Hc : Transition_conditions (Transition_view h2 (fst Shared.shared)) = []).
  { simpl. by rewrite Hcont. }
  destruct (Hrun (Demo.context Demo.solid "melt") Demo.at_solid Demo.at_solid []
              Demo.solid Demo.liquid) as (d & E).
  - by rewrite Hc.
  - vm_compute; reflexivity.
  - vm_compute; reflexivity.
  - rewrite Hb, Ha. demo_all demo_plain.
  - exists h1, h2, d. split; [exact E1|]. split; [exact E2|].
    split; [exact Hb|]. split; [exact Ha|]. exact E.
Defined.





Lemma at_solid_bound : predicates_bound Demo.at_solid /\ keyed_by_name Demo.at_solid.
Proof.
  destruct (construction_mirrors Demo.method (Demo.trigger_at 8) Demo.model
              (PList [SObj Demo.solid; SObj Demo.liquid; SName "gas"]) (SName "solid")
              (Some [Demo.descriptor "melt" "solid" "liquid" PNone
                       (PList ["b1"; "b2"]) (PList ["a1"; "a2"]);
                     Demo.descriptor "evaporate" "liquid" "gas" (POne "is_hot")
                       PNone PNone])
              false Demo.at_solid
              (snd (Demo.matter "is_hot" (PList ["b1"; "b2"]) (PList ["a1"; "a2"]))))
    as (_ & Hb & Hk); [| | |done].
  - vm_compute; reflexivity.
  - apply elem_of_dom. eexists. vm_compute. reflexivity.
  - intros td Htd. simpl in Htd.
    apply elem_of_cons in Htd as [->|Htd];
      [|apply elem_of_cons in Htd as [->|Htd]; [|by apply not_elem_of_nil in Htd]].
    + split; [done|]. intros T _. simpl. discriminate.
    + split; [done|]. intros T _. simpl. discriminate.
Qed.

Lemma Machine_set_state_edges_witness :
  Machine_set_state (Some (SName "plasma")) Demo.at_solid
  = (Err (ValueError "State 'plasma' is not a registered state."), Demo.at_solid, []).
Proof.
  destruct (Machine_set_state_edges (A := unit) Demo.method (Demo.trigger_at 8)
              Demo.at_solid) as (H & _).
  apply H. vm_compute; reflexivity.
Defined.

Lemma predicate_guards_witness :
  exists l,
    check_conditions Demo.method (Demo.trigger_at 8) ["is_solid"; "is_liquid"] Demo.at_solid
    = (Ok false, Demo.at_solid, l).
Proof.
  destruct (predicate_guards Demo.method (Demo.trigger_at 8) Demo.at_solid Demo.solid
              ["solid"; "liquid"]) as (l & H).
  - apply at_solid_bound.
  - vm_compute; reflexivity.
  - repeat (apply Forall_cons; split;
            [apply elem_of_dom; eexists; vm_compute; reflexivity|]).
    constructor.
  - exists l. rewrite bool_decide_eq_false_2 in H; [exact H|].
    intros HF. inversion HF as [|?? _ HF']; subst. by inversion HF'.
Defined.

Lemma guard_exception_ends_trigger_witness :
  Event_trigger Demo.method (Demo.trigger_at 8) Sample.thaw_event [tt] Demo.at_solid
  = (Err (UserError "boom"), with_data ["warm"; "boom"] Demo.at_solid,
     [ANewEventData; ACall "warm"; ACall "boom"]) /\
  Machine_current_state (with_data ["warm"; "boom"] Demo.at_solid) = Some Demo.solid.
Proof.
  destruct (guard_exception_ends_trigger Demo.method (Demo.trigger_at 8)
              Sample.thaw_event [tt] Demo.at_solid Demo.solid [] Sample.thaw []
              ["warm"] "boom" ["never"] (UserError "boom")
              Demo.at_solid [] (with_data ["warm"] Demo.at_solid) [ACall "warm"]
              (with_data ["warm"; "boom"] Demo.at_solid) [ACall "boom"])
    as (E & Hq).
  - vm_compute; reflexivity.
  - vm_compute; reflexivity.
  - apply declined_nil.
  - reflexivity.
  - vm_compute; reflexivity.
  - vm_compute; reflexivity.
  - split; [exact E|]. destruct Hq as (Hcur & _); [| |exact Hcur].
    + intros t' Ht'. by apply not_elem_of_nil in Ht'.
    + demo_all demo_quiet.
Defined.


Lemma Event_trigger_keeps_consistent_witness :
  consistent
    (snd (fst (Event_trigger Demo.method (Demo.trigger_at 8) Demo.go_event [tt]
                 Demo.fork))).
Proof.
  apply (Event_trigger_keeps_consistent Demo.method (Demo.trigger_at 8) Demo.go_event
           [tt] Demo.fork
           (fst (fst (Event_trigger Demo.method (Demo.trigger_at 8) Demo.go_event [tt]
                        Demo.fork)))
           _
           (snd (Event_trigger Demo.method (Demo.trigger_at 8) Demo.go_event [tt]
                   Demo.fork))).
  - apply fork_consistent.
  - apply fork_states_plain.
  - intros k ts Hk.
    refine (proj2 (map_Forall_to_list
                     (fun _ ts => Forall (transition_plain Demo.method Demo.fork) ts)
                     (Event_transitions Demo.go_event)) _ k ts Hk).
    demo_map_all ltac:(repeat (apply Forall_cons; split; [demo_transition_plain|]);
                       constructor).
  - by destruct (Event_trigger _ _ _ _ _) as [[??]?].
Defined.


Lemma Machine_init_consistent_witness : consistent Demo.at_solid.
Proof.
  destruct (Machine_init_consistent Demo.method (Demo.trigger_at 8) Demo.model
              (PList [SObj Demo.solid; SObj Demo.liquid; SName "gas"]) "solid"
              (Some [Demo.descriptor "melt" "solid" "liquid" PNone
                       (PList ["b1"; "b2"]) (PList ["a1"; "a2"]);
                     Demo.descriptor "evaporate" "liquid" "gas" (POne "is_hot")
                       PNone PNone])
              false Demo.at_solid
              (snd (Demo.matter "is_hot" (PList ["b1"; "b2"]) (PList ["a1"; "a2"]))))
    as (H & _); [| |exact H].
  - vm_compute; reflexivity.
  - intros td Htd. simpl in Htd.
    apply elem_of_cons in Htd as [->|Htd];
      [|apply elem_of_cons in Htd as [->|Htd]; [|by apply not_elem_of_nil in Htd]].
    + split; [done|]. intros T _. simpl. discriminate.
    + split; [done|]. intros T _. simpl. discriminate.
Defined.

Lemma after_callback_trigger_witness :
  exists d,
    Transition_execute Demo.method (Demo.trigger_at 8) Sample.go
      (Demo.context Sample.state_A "go") Sample.chain
    = match Demo.trigger_at 8 Sample.next_event
              (with_data d (moved_to Sample.state_B Sample.chain)) with
      | (r, m2, l2) =>
          (match r with
           | Ok _ => Ok (true, refreshed Sample.state_B (Demo.context Sample.state_A "go"))
           | Err x => Err x
           end,
           m2,
           [ACall "b"; ASetState "B"; ASetAttr "state" (AStr "B"); AUpdate; ACall "next"]
           ++ l2)
      end.
Proof.
  destruct (after_callback_trigger Demo.method (Demo.trigger_at 8) Sample.go
              (Demo.context Sample.state_A "go") Sample.chain Sample.chain []
              Sample.state_A Sample.state_B "next" Sample.next_event) as (d & E).
  - reflexivity.
  - vm_compute; reflexivity.
  - vm_compute; reflexivity.
  - demo_all demo_plain.
  - reflexivity.
  - done.
  - vm_compute; reflexivity.
  - vm_compute; reflexivity.
  - exists d. exact E.
Defined.
